(** * Club membership manager: a shallow embedding of [clubappv01.py]

    The development follows the source file top to bottom: the four tables of
    [init_db] with their statements, the settings helpers, the custom-field
    helpers, the filter pipeline of the "all people" tab, the spreadsheet import
    loop and the save handler of the editable view.

    Modelling conventions.
    - A table is the list of its rows in insertion order; a SERIAL column takes
      its values from a counter kept in the store.  [created_at] columns are
      left out.  Every [run_query] commits on its own, so a Python function
      that issues several statements is the composition of their effects.
    - A Python function that can raise returns [option]; [None] stands for the
      exception.  The statements that can raise in the model are the INSERTs
      guarded by a UNIQUE or FOREIGN KEY constraint, a rejected search pattern,
      and a missing session key.
    - Nullable TEXT and INTEGER columns are [option string] and [option Z];
      pandas masks follow the rules of object columns (a missing value prints
      as [None] under [astype(str)], gives a missing mask entry under
      [str.contains] unless [na=False] is passed).
    - [str.lower], [str.strip] and the regular-expression engine behind
      [str.contains] are parameters (class [PyRuntime]); an instance for ASCII
      text and metacharacter-free patterns serves the worked examples.
    - Statement parameters are modelled by the text they leave in a TEXT
      column; the database driver itself is not modelled. *)

From Stdlib Require Import List String Ascii ZArith Bool Arith Lia.
From Stdlib Require Import Permutation DecimalString.
Import ListNotations.
Open Scope string_scope.
Open Scope nat_scope.

(* ================================================================== *)
(** ** Strings as Python and pandas use them *)

(** Literal substring search: [pat in s]. *)
Fixpoint str_contains (pat s : string) : bool :=
  prefix pat s ||
  match s with
  | EmptyString => false
  | String _ s' => str_contains pat s'
  end.

(** [str(n)] for a non-negative Python int. *)
Definition str_of_nat (n : nat) : string :=
  NilEmpty.string_of_uint (Nat.to_uint n).

(** [str(z)] for a Python int. *)
Definition str_of_Z (z : Z) : string :=
  NilZero.string_of_int (Z.to_int z).

(** [str(x)] / [Series.astype(str)] on a nullable text value: a missing value
    prints as the four letters of Python's [None]. *)
Definition str_of_null (v : option string) : string :=
  match v with
  | Some s => s
  | None => "None"
  end.

(** [Series == scalar] on a nullable text column: a missing value compares
    unequal. *)
Definition series_eq (v : option string) (s : string) : bool :=
  match v with
  | Some x => String.eqb x s
  | None => false
  end.

(** [Series.isin(values)] on nullable columns. *)
Definition isin_text (v : option string) (values : list string) : bool :=
  match v with
  | Some x => existsb (String.eqb x) values
  | None => false
  end.

Definition isin_int (v : option Z) (values : list Z) : bool :=
  match v with
  | Some x => existsb (Z.eqb x) values
  | None => false
  end.

(** The three library functions whose text semantics the program relies on.
    [re_compile pat] is [re.compile(pat)] followed by [.search]: [None] when the
    pattern is rejected ([re.error]), otherwise the predicate "the pattern
    matches somewhere in the subject".  pandas' [str.contains] calls it with its
    default [regex=True]. *)
Class PyRuntime := {
  py_lower : string -> string;
  py_strip : string -> string;
  re_compile : string -> option (string -> bool)
}.

(** A pattern on which the regular-expression engine performs a plain
    substring search; Python's [re] does so for every pattern free of
    metacharacters. *)
Definition searches_literally `{PyRuntime} (pat : string) : Prop :=
  exists search, re_compile pat = Some search /\
                 forall s, search s = str_contains pat s.

(** [Series.str.contains(pat, na=False)]. *)
Definition contains_na_false (search : string -> bool) (v : option string) : bool :=
  match v with
  | Some s => search s
  | None => false
  end.

(** [Series.str.contains(pat)] with the default [na]: a missing value yields a
    missing mask entry. *)
Definition contains_na (search : string -> bool) (v : option string) : option bool :=
  option_map search v.

(** [left | right] on two masks that may hold missing entries, followed by the
    use of the result as a boolean index (pandas 2 object-dtype rules): a
    missing right entry counts as [False]; a missing left entry makes the
    result [False]. *)
Definition mask_or (left right : option bool) : bool :=
  match left with
  | Some a => a || match right with Some b => b | None => false end
  | None => false
  end.

(* ================================================================== *)
(** ** The schema of [init_db] *)

(** Table [people].  [created_at] is a storage timestamp and is left out. *)
Record person := mkPerson {
  p_id : nat;
  last_name : option string;
  first_name : option string;
  phone : option string;
  email : option string;
  is_member : option string;
  member_month : option string;
  member_year : option Z;
  subscription_year : option Z;
  is_athlete : option string;
  eom_number : option string;
  athlete_from_year : option Z;
  is_student : option string;
  student_period_month : option string;
  student_period_year : option Z;
  student_university : option string;
  is_interested : option string;
  interested_from_month : option string;
  interested_from_year : option Z
}.

(** Table [settings]. *)
Record setting := mkSetting {
  s_id : nat;
  club_name : option string
}.

(** Table [custom_fields]; [field_name] carries a UNIQUE constraint. *)
Record custom_field := mkField {
  cf_id : nat;
  field_name : string;
  display_name : string;
  applicable_domains : option string
}.

(** Table [member_attributes]; [member_id] and [field_id] reference
    [people(id)] and [custom_fields(id)], both ON DELETE CASCADE. *)
Record member_attribute := mkAttr {
  ma_id : nat;
  member_id : nat;
  field_id : nat;
  field_value : option string
}.

(** The store: four tables and the four SERIAL sequences. *)
Record database := mkDb {
  people : list person;
  settings : list setting;
  custom_fields : list custom_field;
  member_attributes : list member_attribute;
  people_seq : nat;
  settings_seq : nat;
  custom_fields_seq : nat;
  member_attributes_seq : nat
}.

(** The store right after [init_db] on an empty server. *)
Definition init_db : database := mkDb [] [] [] [] 1 1 1 1.

Definition set_people (db : database) (l : list person) (seq : nat) : database :=
  mkDb l (settings db) (custom_fields db) (member_attributes db)
       seq (settings_seq db) (custom_fields_seq db) (member_attributes_seq db).

Definition set_settings (db : database) (l : list setting) (seq : nat) : database :=
  mkDb (people db) l (custom_fields db) (member_attributes db)
       (people_seq db) seq (custom_fields_seq db) (member_attributes_seq db).

Definition set_custom_fields (db : database) (l : list custom_field) (seq : nat) : database :=
  mkDb (people db) (settings db) l (member_attributes db)
       (people_seq db) (settings_seq db) seq (member_attributes_seq db).

Definition set_member_attributes (db : database) (l : list member_attribute) (seq : nat) : database :=
  mkDb (people db) (settings db) (custom_fields db) l
       (people_seq db) (settings_seq db) (custom_fields_seq db) seq.

(* ================================================================== *)
(** ** Settings *)

(** [SELECT club_name FROM settings LIMIT 1], then [iloc[0]] or [None]. *)
Definition get_club_name (db : database) : option string :=
  match settings db with
  | [] => None
  | row :: _ => club_name row
  end.

(** [DELETE FROM settings]. *)
Definition delete_all_settings (db : database) : database :=
  set_settings db [] (settings_seq db).

(** [INSERT INTO settings (club_name) VALUES (%s)]. *)
Definition insert_setting (name : string) (db : database) : database :=
  set_settings db (settings db ++ [mkSetting (settings_seq db) (Some name)])
               (S (settings_seq db)).

Definition set_club_name (name : string) (db : database) : database :=
  insert_setting name (delete_all_settings db).

(* ================================================================== *)
(** ** Custom fields and member attributes *)

Fixpoint insert_by_id (x : custom_field) (l : list custom_field) : list custom_field :=
  match l with
  | [] => [x]
  | y :: l' => if cf_id x <=? cf_id y then x :: l else y :: insert_by_id x l'
  end.

(** [SELECT * FROM custom_fields ORDER BY id]. *)
Definition get_custom_fields (db : database) : list custom_field :=
  fold_right insert_by_id [] (custom_fields db).

(** One result row of [get_member_attributes]:
    [cf.id, cf.field_name, cf.display_name, ma.field_value]. *)
Record attribute_row := mkAttrRow {
  ar_id : nat;
  ar_field_name : string;
  ar_display_name : string;
  ar_field_value : option string
}.

(** The inner join of [member_attributes] with [custom_fields], restricted to
    one member. *)
Definition get_member_attributes (m : nat) (db : database) : list attribute_row :=
  flat_map
    (fun ma =>
       if member_id ma =? m then
         map (fun cf => mkAttrRow (cf_id cf) (field_name cf) (display_name cf)
                                  (field_value ma))
             (filter (fun cf => cf_id cf =? field_id ma) (custom_fields db))
       else [])
    (member_attributes db).

Definition same_pair (m f : nat) (ma : member_attribute) : bool :=
  (member_id ma =? m) && (field_id ma =? f).

Definition person_exists (m : nat) (db : database) : bool :=
  existsb (fun p => p_id p =? m) (people db).

Definition field_exists (f : nat) (db : database) : bool :=
  existsb (fun cf => cf_id cf =? f) (custom_fields db).

(** [INSERT INTO member_attributes (member_id, field_id, field_value)]: the two
    foreign keys are checked, a violation raises and nothing is written. *)
Definition insert_member_attribute (m f : nat) (v : option string) (db : database)
  : option database :=
  if person_exists m db && field_exists f db then
    Some (set_member_attributes db
            (member_attributes db ++ [mkAttr (member_attributes_seq db) m f v])
            (S (member_attributes_seq db)))
  else None.

(** A row with its [field_value] column set. *)
Definition set_value (v : option string) (ma : member_attribute) : member_attribute :=
  mkAttr (ma_id ma) (member_id ma) (field_id ma) v.

(** [UPDATE member_attributes SET field_value=%s WHERE member_id=%s AND field_id=%s]. *)
Definition update_member_attribute (m f : nat) (v : option string) (db : database)
  : database :=
  set_member_attributes db
    (map (fun ma => if same_pair m f ma then set_value v ma else ma)
         (member_attributes db))
    (member_attributes_seq db).

Definition save_member_attribute (m f : nat) (v : option string) (db : database)
  : option database :=
  let existing := filter (same_pair m f) (member_attributes db) in
  match existing with
  | [] => insert_member_attribute m f v db
  | _ :: _ => Some (update_member_attribute m f v db)
  end.

(** The sentinel stored when a field applies to every domain. *)
Definition ALL : string := "Όλα".

(** [INSERT INTO custom_fields (field_name, display_name, applicable_domains)]:
    raises on a [field_name] that is already present. *)
Definition insert_custom_field (name display domains_str : string) (db : database)
  : option database :=
  if existsb (fun cf => String.eqb (field_name cf) name) (custom_fields db) then None
  else Some (set_custom_fields db
               (custom_fields db ++
                  [mkField (custom_fields_seq db) name display (Some domains_str)])
               (S (custom_fields_seq db))).

Definition add_custom_field (name display : string) (applicable : list string)
           (db : database) : option database :=
  let domains_str :=
    match applicable with
    | [] => ALL
    | _ :: _ => String.concat "," applicable
    end in
  insert_custom_field name display domains_str db.

(** [DELETE FROM member_attributes WHERE field_id=%s]. *)
Definition delete_attributes_of_field (f : nat) (db : database) : database :=
  set_member_attributes db
    (filter (fun ma => negb (field_id ma =? f)) (member_attributes db))
    (member_attributes_seq db).

(** [DELETE FROM custom_fields WHERE id=%s], with the cascade of the foreign
    key of [member_attributes]. *)
Definition delete_field_row (f : nat) (db : database) : database :=
  let db' := set_custom_fields db
               (filter (fun cf => negb (cf_id cf =? f)) (custom_fields db))
               (custom_fields_seq db) in
  set_member_attributes db'
    (filter (fun ma => negb (field_id ma =? f)) (member_attributes db'))
    (member_attributes_seq db').

Definition delete_custom_field (f : nat) (db : database) : database :=
  delete_field_row f (delete_attributes_of_field f db).

(** The row mask of [get_custom_fields_by_domain]. *)
Definition domain_mask (search : string -> bool) (cf : custom_field) : bool :=
  series_eq (applicable_domains cf) ALL ||
  contains_na_false search (applicable_domains cf).

Definition get_custom_fields_by_domain `{PyRuntime} (domain : string) (db : database)
  : option (list custom_field) :=
  let all_custom := get_custom_fields db in
  match all_custom with
  | [] => Some all_custom
  | _ :: _ =>
    match re_compile domain with
    | None => None
    | Some search => Some (filter (domain_mask search) all_custom)
    end
  end.

(* ================================================================== *)
(** ** People statements *)

(** A row with its [id] column set. *)
Definition with_id (i : nat) (p : person) : person :=
  mkPerson i (last_name p) (first_name p) (phone p) (email p)
           (is_member p) (member_month p) (member_year p) (subscription_year p)
           (is_athlete p) (eom_number p) (athlete_from_year p)
           (is_student p) (student_period_month p) (student_period_year p)
           (student_university p)
           (is_interested p) (interested_from_month p) (interested_from_year p).

(** [INSERT INTO people (...)]: the row receives the next value of the
    sequence; the [p_id] of the argument is ignored. *)
Definition insert_person (p : person) (db : database) : database :=
  set_people db (people db ++ [with_id (people_seq db) p]) (S (people_seq db)).

(** The eleven columns written by the UPDATE of the editable view. *)
Record person_edit := mkEdit {
  e_last_name : option string;
  e_first_name : option string;
  e_phone : option string;
  e_email : option string;
  e_is_member : option string;
  e_member_month : option string;
  e_member_year : option Z;
  e_subscription_year : option Z;
  e_is_athlete : option string;
  e_eom_number : option string;
  e_athlete_from_year : option Z
}.

(** [UPDATE people SET ... WHERE id=%s]. *)
Definition update_person (rid : nat) (e : person_edit) (db : database) : database :=
  set_people db
    (map (fun p =>
            if p_id p =? rid then
              mkPerson (p_id p) (e_last_name e) (e_first_name e) (e_phone e) (e_email e)
                       (e_is_member e) (e_member_month e) (e_member_year e)
                       (e_subscription_year e)
                       (e_is_athlete e) (e_eom_number e) (e_athlete_from_year e)
                       (is_student p) (student_period_month p) (student_period_year p)
                       (student_university p)
                       (is_interested p) (interested_from_month p)
                       (interested_from_year p)
            else p)
         (people db))
    (people_seq db).

(** [DELETE FROM people WHERE id=%s], with the cascade of the foreign key of
    [member_attributes]. *)
Definition delete_person_row (rid : nat) (db : database) : database :=
  let db' := set_people db (filter (fun p => negb (p_id p =? rid)) (people db))
                        (people_seq db) in
  set_member_attributes db'
    (filter (fun ma => negb (member_id ma =? rid)) (member_attributes db'))
    (member_attributes_seq db').

(** [DELETE FROM member_attributes WHERE member_id=%s]. *)
Definition delete_attributes_of_member (rid : nat) (db : database) : database :=
  set_member_attributes db
    (filter (fun ma => negb (member_id ma =? rid)) (member_attributes db))
    (member_attributes_seq db).

(** The delete button of the editable view. *)
Definition delete_person (rid : nat) (db : database) : database :=
  delete_attributes_of_member rid (delete_person_row rid db).

(* ================================================================== *)
(** ** The filter pipeline of the "all people" tab *)

(** [st.session_state.filters]. *)
Record filters := mkFilters {
  f_is_member : string;
  f_is_athlete : string;
  f_is_student : string;
  f_is_interested : string;
  f_member_month : list string;
  f_member_year : list Z;
  f_subscription_year : list Z;
  f_athlete_from_year : list Z;
  f_student_period_month : list string;
  f_student_period_year : list Z;
  f_student_university : list string;
  f_eom_number_search : string;
  f_name_search : string;
  f_email_search : string
}.

(** The initial value of [st.session_state.filters]. *)
Definition default_filters : filters :=
  mkFilters ALL ALL ALL ALL [] [] [] [] [] [] [] EmptyString EmptyString EmptyString.

Definition with_name_search (f : filters) (text : string) : filters :=
  mkFilters (f_is_member f) (f_is_athlete f) (f_is_student f) (f_is_interested f)
            (f_member_month f) (f_member_year f) (f_subscription_year f)
            (f_athlete_from_year f) (f_student_period_month f)
            (f_student_period_year f) (f_student_university f)
            (f_eom_number_search f) text (f_email_search f).

(** Truth value of a Python string. *)
Definition truthy (s : string) : bool :=
  match s with
  | EmptyString => false
  | String _ _ => true
  end.

(** A row mask. *)
Definition clause := person -> bool.

(** One entry of the single-choice loop: the filter key and the column. *)
Definition single_filter : Type := (filters -> string) * (person -> option string).

Definition single_filters : list single_filter :=
  [ (f_is_member, is_member); (f_is_athlete, is_athlete);
    (f_is_student, is_student); (f_is_interested, is_interested) ].

Definition single_selected (f : filters) (c : single_filter) : bool :=
  negb (String.eqb (fst c f) ALL).

Definition single_mask (f : filters) (c : single_filter) : clause :=
  fun row => series_eq (snd c row) (fst c f).

Definition single_step (f : filters) (df : list person) (c : single_filter)
  : list person :=
  if single_selected f c then filter (single_mask f c) df else df.

(** One entry of [multi_filters]: key and column, text or integer. *)
Inductive multi_filter : Type :=
| TextChoice (key : filters -> list string) (col : person -> option string)
| IntChoice (key : filters -> list Z) (col : person -> option Z).

Definition multi_filters : list multi_filter :=
  [ TextChoice f_member_month member_month;
    IntChoice f_member_year member_year;
    IntChoice f_subscription_year subscription_year;
    IntChoice f_athlete_from_year athlete_from_year;
    TextChoice f_student_period_month student_period_month;
    IntChoice f_student_period_year student_period_year;
    TextChoice f_student_university student_university ].

(** Truth value of the list [f[key]]. *)
Definition multi_selected (f : filters) (c : multi_filter) : bool :=
  match c with
  | TextChoice key _ => match key f with [] => false | _ :: _ => true end
  | IntChoice key _ => match key f with [] => false | _ :: _ => true end
  end.

Definition multi_mask (f : filters) (c : multi_filter) : clause :=
  fun row =>
    match c with
    | TextChoice key col => isin_text (col row) (key f)
    | IntChoice key col => isin_int (col row) (key f)
    end.

Definition multi_step (f : filters) (df : list person) (c : multi_filter)
  : list person :=
  if multi_selected f c then filter (multi_mask f c) df else df.

Section FilterPipeline.
Context `{PyRuntime}.

Definition name_mask (search : string -> bool) : clause :=
  fun row =>
    mask_or (contains_na search (option_map py_lower (first_name row)))
            (contains_na search (option_map py_lower (last_name row))).

Definition eom_mask (search : string -> bool) : clause :=
  fun row => search (str_of_null (eom_number row)).

Definition email_mask (search : string -> bool) : clause :=
  fun row => search (str_of_null (email row)).

(** A text step: skipped on a falsy string, otherwise the pattern is
    compiled (which may raise) and the mask applied. *)
Definition text_step (text pattern : string) (mask : (string -> bool) -> clause)
           (df : list person) : option (list person) :=
  if truthy text then
    match re_compile pattern with
    | Some search => Some (filter (mask search) df)
    | None => None
    end
  else Some df.

(** The pipeline with the two loop tables as parameters. *)
Definition apply_filters (singles : list single_filter) (multis : list multi_filter)
           (f : filters) (df_all : list person) : option (list person) :=
  let df1 := fold_left (single_step f) singles df_all in
  let df2 := fold_left (multi_step f) multis df1 in
  match text_step (f_name_search f) (py_lower (py_strip (f_name_search f)))
                  name_mask df2 with
  | None => None
  | Some df3 =>
    match text_step (f_eom_number_search f) (py_strip (f_eom_number_search f))
                    eom_mask df3 with
    | None => None
    | Some df4 =>
      text_step (f_email_search f) (py_strip (f_email_search f)) email_mask df4
    end
  end.

(** [filtered_df] as the tab computes it. *)
Definition filtered_df (f : filters) (df_all : list person) : option (list person) :=
  apply_filters single_filters multi_filters f df_all.

End FilterPipeline.

(* ================================================================== *)
(** ** The spreadsheet import of tab 8 *)

(** A spreadsheet cell as [pd.read_excel] delivers it: text, or the float NaN
    of an empty cell.  Numeric cells are carried as their text. *)
Inductive cell : Type :=
| CStr (s : string)
| CNaN.

(** [str(cell)]. *)
Definition str_of_cell (c : cell) : string :=
  match c with
  | CStr s => s
  | CNaN => "nan"
  end.

(** The text a cell leaves in a TEXT column when passed as a statement
    parameter. *)
Definition sql_of_cell (c : cell) : string :=
  match c with
  | CStr s => s
  | CNaN => "NaN"
  end.

(** A row of [df_import]: the cell under each column header.  The column names
    the loop looks up are chosen among the headers of the sheet, so every
    lookup is defined. *)
Definition excel_row : Type := string -> cell.

(** [key_fields]: for each base field, the selected column, or [None] when the
    operator left the choice on "none". *)
Record key_fields := mkKeys {
  k_first_name : option string;
  k_last_name : option string;
  k_phone : option string;
  k_email : option string;
  k_is_member : option string;
  k_is_athlete : option string;
  k_eom_number : option string
}.

(** The dictionary [data] built for one row: an absent key is [None]. *)
Record import_data := mkData {
  d_first_name : option cell;
  d_last_name : option cell;
  d_phone : option cell;
  d_email : option cell;
  d_is_member : option cell;
  d_is_athlete : option cell;
  d_eom_number : option cell
}.

Definition project (kf : key_fields) (row : excel_row) : import_data :=
  mkData (option_map row (k_first_name kf)) (option_map row (k_last_name kf))
         (option_map row (k_phone kf)) (option_map row (k_email kf))
         (option_map row (k_is_member kf)) (option_map row (k_is_athlete kf))
         (option_map row (k_eom_number kf)).

(** [str(data.get(key, ""))]. *)
Definition str_get (v : option cell) : string :=
  match v with
  | Some c => str_of_cell c
  | None => EmptyString
  end.

(** [data.get(key)] as a statement parameter: [None] is sent as NULL. *)
Definition sql_get (v : option cell) : option string :=
  option_map sql_of_cell v.

(** A row of [SELECT first_name,last_name,email FROM people]. *)
Definition name_triple : Type := option string * option string * option string.

Definition select_names (db : database) : list name_triple :=
  map (fun p => (first_name p, last_name p, email p)) (people db).

(** SQL [column = parameter]: never true when either side is NULL. *)
Definition sql_eq (column param : option string) : bool :=
  match column, param with
  | Some a, Some b => String.eqb a b
  | _, _ => false
  end.

(** [SELECT id FROM people WHERE email=%s AND first_name=%s AND last_name=%s]. *)
Definition select_id_by_names (em fn ln : option string) (db : database) : list nat :=
  map p_id
      (filter (fun p => sql_eq (email p) em && sql_eq (first_name p) fn
                        && sql_eq (last_name p) ln)
              (people db)).

(** The person row written by the INSERT of the import loop. *)
Definition imported_person (data : import_data) : person :=
  mkPerson 0 (sql_get (d_last_name data)) (sql_get (d_first_name data))
           (sql_get (d_phone data)) (sql_get (d_email data))
           (sql_get (d_is_member data)) None None None
           (sql_get (d_is_athlete data)) (sql_get (d_eom_number data)) None
           None None None None None None None.

(** [custom_fields_mapping]: field id, field name and spreadsheet column, in
    the order the dictionary was filled. *)
Record field_mapping := mkMapping {
  fm_field_id : nat;
  fm_field_name : string;
  fm_excel_column : string
}.

(** What [st.warning] reports for a failed cell. *)
Record import_warning := mkWarning {
  w_field_name : string;
  w_first_name : option cell
}.

(** The loop state: the store, the two counters and the warnings shown. *)
Record import_state := mkImport {
  st_db : database;
  inserted : nat;
  skipped : nat;
  warnings : list import_warning
}.

Section ImportRows.
Context `{PyRuntime}.

(** Case-insensitive equality of a stored column and an incoming value, both
    rendered with [str]. *)
Definition ci_equal (stored : option string) (incoming : option cell) : bool :=
  String.eqb (py_lower (str_of_null stored)) (py_lower (str_get incoming)).

Definition matches (data : import_data) (t : name_triple) : bool :=
  let '(fn, ln, em) := t in
  ci_equal fn (d_first_name data) && ci_equal ln (d_last_name data)
  && ci_equal em (d_email data).

(** The duplicate test: [( ... & ... & ... ).any()]. *)
Definition is_duplicate (existing : list name_triple) (data : import_data) : bool :=
  existsb (matches data) existing.

(** The body of the [try] block for one mapped field. *)
Definition write_cell (member : nat) (row : excel_row) (data : import_data)
           (acc : database * list import_warning) (fm : field_mapping)
  : database * list import_warning :=
  let '(db, ws) := acc in
  let field_value := str_of_cell (row (fm_excel_column fm)) in
  if truthy field_value && negb (String.eqb (py_lower field_value) "nan") then
    match save_member_attribute member (fm_field_id fm) (Some field_value) db with
    | Some db' => (db', ws)
    | None => (db, (ws ++ [mkWarning (fm_field_name fm) (d_first_name data)])%list)
    end
  else (db, ws).

(** One iteration of the import loop. *)
Definition import_row (existing : list name_triple) (kf : key_fields)
           (mapping : list field_mapping) (st : import_state) (row : excel_row)
  : import_state :=
  let data := project kf row in
  if is_duplicate existing data then
    mkImport (st_db st) (inserted st) (S (skipped st)) (warnings st)
  else
    let db1 := insert_person (imported_person data) (st_db st) in
    let member_result :=
      select_id_by_names (sql_get (d_email data)) (sql_get (d_first_name data))
                         (sql_get (d_last_name data)) db1 in
    match member_result with
    | [] => mkImport db1 (inserted st) (skipped st) (warnings st)
    | member :: _ =>
      let '(db2, ws) :=
        fold_left (write_cell member row data) mapping (db1, warnings st) in
      mkImport db2 (S (inserted st)) (skipped st) ws
    end.

(** The import button: the snapshot [existing] is read once, then the rows
    are processed in order. *)
Definition import_rows (kf : key_fields) (mapping : list field_mapping)
           (df_import : list excel_row) (db : database) : import_state :=
  let existing := select_names db in
  fold_left (import_row existing kf mapping) df_import (mkImport db 0 0 []).

End ImportRows.

(* ================================================================== *)
(** ** The save button of the editable view *)

(** A value held by [st.session_state] under a widget key. *)
Inductive session_value : Type :=
| SText (s : string)
| SInt (z : Z)
| SBool (b : bool).

(** [st.session_state] as the list of its entries. *)
Definition session_state : Type := list (string * session_value).

(** [st.session_state.get(key)]. *)
Fixpoint session_get (ss : session_state) (key : string) : option session_value :=
  match ss with
  | [] => None
  | (k, v) :: ss' => if String.eqb k key then Some v else session_get ss' key
  end.

(** [f"{tab_prefix}_{name}_{rid}"]. *)
Definition widget_key (tab_prefix name : string) (rid : nat) : string :=
  (tab_prefix ++ "_" ++ name ++ "_" ++ str_of_nat rid)%string.

(** The names out of which [display_editable_all] builds the keys of its own
    widgets. *)
Definition widget_names : list string :=
  [ "last_name"; "first_name"; "phone"; "email"; "is_member"; "member_month";
    "member_year"; "subscription_year"; "is_athlete"; "eom_number";
    "athlete_from_year"; "save"; "delete" ].

(** The keys the script ever gives to a widget or to session state: the
    [all_] family of the editable view, the [new_] keys of tab 1 and tab 9, the
    [map_] keys of tab 8, the [delete_] keys of tab 9, [settings_club_name] and
    [filters]. *)
Inductive script_key : string -> Prop :=
| key_editable name rid :
    In name widget_names -> script_key (widget_key "all" name rid)
| key_new rest : script_key ("new_" ++ rest)%string
| key_map rest : script_key ("map_" ++ rest)%string
| key_delete rest : script_key ("delete_" ++ rest)%string
| key_settings : script_key "settings_club_name"
| key_filters : script_key "filters".

Definition session_wf (ss : session_state) : Prop :=
  forall key v, session_get ss key = Some v -> script_key key.

(** The text a session value leaves in a TEXT column. *)
Definition sql_text (v : session_value) : string :=
  match v with
  | SText s => s
  | SInt z => str_of_Z z
  | SBool true => "true"
  | SBool false => "false"
  end.

(** The integer a session value leaves in an INTEGER column; the widgets
    behind these keys are select boxes over years. *)
Definition sql_int (v : session_value) : option Z :=
  match v with
  | SInt z => Some z
  | _ => None
  end.

Notation "x <- e ;; k" :=
  (match e with Some x => k | None => None end)
    (at level 61, e at next level, right associativity).

(** The body of [if st.button("save")]: [st.session_state[key]] raises when the
    key is absent. *)
Definition save_changes (tab_prefix : string) (ss : session_state) (rid : nat)
           (db : database) : option database :=
  let at_key name := session_get ss (widget_key tab_prefix name rid) in
  ln <- at_key "last_name" ;;
  fn <- at_key "first_name" ;;
  ph <- at_key "phone" ;;
  em <- at_key "email" ;;
  im <- at_key "is_member" ;;
  mm <- at_key "member_month" ;;
  my <- at_key "member_year" ;;
  sy <- at_key "subscription_year" ;;
  ia <- at_key "is_athlete" ;;
  eo <- at_key "eom_number" ;;
  ay <- at_key "athlete_from_year" ;;
  my' <- sql_int my ;;
  sy' <- sql_int sy ;;
  ay' <- sql_int ay ;;
  let db1 :=
    update_person rid
      (mkEdit (Some (sql_text ln)) (Some (sql_text fn)) (Some (sql_text ph))
              (Some (sql_text em)) (Some (sql_text im)) (Some (sql_text mm))
              (Some my') (Some sy') (Some (sql_text ia)) (Some (sql_text eo))
              (Some ay'))
      db in
  let custom_attrs := get_member_attributes rid db1 in
  fold_left
    (fun acc attr =>
       d <- acc ;;
       save_member_attribute rid (ar_id attr)
         (option_map sql_text (at_key (ar_field_name attr))) d)
    custom_attrs (Some db1).

(* ================================================================== *)
(** ** The operator's actions *)

(** Every action of the script that writes to the store. *)
Inductive operation : Type :=
| OpSetClubName (name : string)
| OpAddCustomField (name display : string) (applicable : list string)
| OpDeleteCustomField (f : nat)
| OpSaveMemberAttribute (m f : nat) (v : option string)
| OpInsertPerson (p : person)
| OpSaveChanges (ss : session_state) (rid : nat)
| OpDeletePerson (rid : nat)
| OpImport (kf : key_fields) (mapping : list field_mapping) (rows : list excel_row).

(** An action whose statement raises leaves the store as it was. *)
Definition or_unchanged (db : database) (r : option database) : database :=
  match r with
  | Some db' => db'
  | None => db
  end.

Definition exec `{PyRuntime} (op : operation) (db : database) : database :=
  match op with
  | OpSetClubName name => set_club_name name db
  | OpAddCustomField name display applicable =>
      or_unchanged db (add_custom_field name display applicable db)
  | OpDeleteCustomField f => delete_custom_field f db
  | OpSaveMemberAttribute m f v => or_unchanged db (save_member_attribute m f v db)
  | OpInsertPerson p => insert_person p db
  | OpSaveChanges ss rid => or_unchanged db (save_changes "all" ss rid db)
  | OpDeletePerson rid => delete_person rid db
  | OpImport kf mapping rows => st_db (import_rows kf mapping rows db)
  end.

(** The store after a sequence of actions, starting from the empty schema. *)
Definition run `{PyRuntime} (ops : list operation) : database :=
  fold_left (fun db op => exec op db) ops init_db.

(* ================================================================== *)
(** ** A runtime for ASCII text *)

Definition ascii_lower_char (c : ascii) : ascii :=
  let n := nat_of_ascii c in
  if (65 <=? n) && (n <=? 90) then ascii_of_nat (n + 32) else c.

Fixpoint ascii_lower (s : string) : string :=
  match s with
  | EmptyString => EmptyString
  | String c s' => String (ascii_lower_char c) (ascii_lower s')
  end.

Definition is_space (c : ascii) : bool :=
  let n := nat_of_ascii c in
  ((9 <=? n) && (n <=? 13)) || ((28 <=? n) && (n <=? 32)).

Fixpoint lstrip (s : string) : string :=
  match s with
  | EmptyString => EmptyString
  | String c s' => if is_space c then lstrip s' else s
  end.

Fixpoint rstrip (s : string) : string :=
  match s with
  | EmptyString => EmptyString
  | String c s' =>
    match rstrip s' with
    | EmptyString => if is_space c then EmptyString else String c EmptyString
    | t => String c t
    end
  end.

Definition ascii_strip (s : string) : string := rstrip (lstrip s).

(** The characters with a special meaning in a Python regular expression. *)
Definition regex_metachars : string := ".^$*+?{}[]\|()".

Fixpoint regex_literal (pat : string) : bool :=
  match pat with
  | EmptyString => true
  | String c pat' =>
    negb (str_contains (String c EmptyString) regex_metachars) && regex_literal pat'
  end.

(** [re] on patterns without metacharacters, where searching is substring
    search.  Other patterns are outside this instance and reported as
    rejected. *)
Definition literal_re (pat : string) : option (string -> bool) :=
  if regex_literal pat then Some (str_contains pat) else None.

Definition ascii_runtime : PyRuntime :=
  {| py_lower := ascii_lower; py_strip := ascii_strip; re_compile := literal_re |}.

(** The five category tags the script offers when a field is defined and
    passes to [get_custom_fields_by_domain]. *)
Definition domain_tags : list string :=
  [ "ΓΕΝΙΚΑ ΣΤΟΙΧΕΙΑ"; "ΜΕΛΟΣ"; "ΑΘΛΗΤΗΣ"; "ΜΑΘΗΤΗΣ"; "ΕΝΔΙΑΦΕΡΟΜΕΝΟΣ" ].

(* ================================================================== *)
(** ** Vocabulary of the properties *)

(** The attribute rows stored for one (member, field) pair. *)
Definition rows_of_pair (m f : nat) (db : database) : list member_attribute :=
  filter (same_pair m f) (member_attributes db).

(** No pair owns more than one attribute row. *)
Definition unique_pairs (db : database) : Prop :=
  forall m f, List.length (rows_of_pair m f db) <= 1.

(** Successive calls of [save_member_attribute] for one pair, one per value;
    a call that raises ends the sequence. *)
Definition save_all (m f : nat) (values : list (option string)) (db : database)
  : option database :=
  fold_left (fun acc v => d <- acc ;; save_member_attribute m f v d) values (Some db).

(** A field applies to a domain when its stored string is the sentinel or
    contains the domain as a substring. *)
Definition applies_to (domain : string) (cf : custom_field) : Prop :=
  applicable_domains cf = Some ALL \/
  exists s, applicable_domains cf = Some s /\ str_contains domain s = true.

Fixpoint has_char (x : ascii) (s : string) : bool :=
  match s with
  | EmptyString => false
  | String c s' => Ascii.eqb c x || has_char x s'
  end.

Definition has_comma (s : string) : bool := has_char "," s.

(** A set of category tags is usable with the joined-string encoding when
    every tag is non-empty, has no comma, differs from the sentinel, and no
    tag occurs inside a different one. *)
Definition valid_tags (tags : list string) : bool :=
  forallb (fun t => truthy t && negb (has_comma t) && negb (String.eqb t ALL)
                    && forallb (fun u => String.eqb t u || negb (str_contains t u)) tags)
          tags.

(** What [add_custom_field] stores for a set of domains. *)
Definition stored_domains (applicable : list string) : string :=
  match applicable with
  | [] => ALL
  | _ :: _ => String.concat "," applicable
  end.




Section ActiveClauses.
Context `{PyRuntime}.



End ActiveClauses.

(** The rows given ids in sequence, as successive INSERTs number them. *)
Fixpoint number_from (seq : nat) (ps : list person) : list person :=
  match ps with
  | [] => []
  | p :: ps' => with_id seq p :: number_from (S seq) ps'
  end.

(** The three columns of the identity re-query are all mapped. *)
Definition keys_mapped (kf : key_fields) : bool :=
  match k_email kf, k_first_name kf, k_last_name kf with
  | Some _, Some _, Some _ => true
  | _, _, _ => false
  end.

Section ImportVocabulary.
Context `{PyRuntime}.

(** The rows of the sheet that match no person of the snapshot. *)
Definition fresh_rows (existing : list name_triple) (kf : key_fields)
           (rows : list excel_row) : list excel_row :=
  filter (fun row => negb (is_duplicate existing (project kf row))) rows.

(** The rows of the sheet that match some person of the snapshot. *)
Definition duplicate_rows (existing : list name_triple) (kf : key_fields)
           (rows : list excel_row) : list excel_row :=
  filter (fun row => is_duplicate existing (project kf row)) rows.

End ImportVocabulary.

(** Session entries for the widgets of one row of the editable view. *)
Definition widget_entries (tab_prefix : string) (rid : nat)
           (values : list (string * session_value)) : session_state :=
  map (fun nv => (widget_key tab_prefix (fst nv) rid, snd nv)) values.

(** Every attribute row refers to a defined field, as the foreign key of
    [member_attributes] enforces. *)
Definition fields_defined (db : database) : Prop :=
  forall ma, In ma (member_attributes db) -> field_exists (field_id ma) db = true.

(** The value the loop of the save button leaves in an attribute row of the
    member: the value read for the last visited attribute of the row's field,
    the old value when the loop visits none. *)
Definition value_after (g : attribute_row -> option string)
           (attrs : list attribute_row) (ma : member_attribute) : option string :=
  fold_left (fun v a => if ar_id a =? field_id ma then g a else v) attrs
            (field_value ma).

(** The field of an attribute row is defined and no definition with its id is
    named like a widget of the editable view. *)
Definition custom_named (db : database) (ma : member_attribute) : Prop :=
  field_exists (field_id ma) db = true /\
  forall cf, In cf (custom_fields db) -> cf_id cf = field_id ma ->
             ~ In (field_name cf) widget_names.

(** How the save button for member [rid] relates an attribute row to the row
    found in its place afterwards: the key columns are kept, rows of other
    members are untouched, and a row of the member whose field is
    [custom_named] holds NULL. *)
Definition rewritten_null (rid : nat) (db : database) (old new : member_attribute)
  : Prop :=
  ma_id new = ma_id old /\ member_id new = member_id old /\
  field_id new = field_id old /\
  (member_id old <> rid -> new = old) /\
  (member_id old = rid -> custom_named db old -> field_value new = None).

(* ================================================================== *)
(** ** Sample data *)

(** A person stored without first and last name, as the import writes it when
    only the e-mail column is mapped. *)
Definition unnamed_person : person :=
  mkPerson 1 None None None (Some "n@x.com") None None None None None None None
           None None None None None None None.

(** A person with the three identity columns set. *)
Definition named_person (i : nat) (first last mail : string) : person :=
  mkPerson i (Some last) (Some first) None (Some mail) None None None None None None
           None None None None None None None None.

(** A row of a sheet with the headers [First], [Last], [Email] and [Extra]. *)
Definition sheet_row (first last mail : string) (extra : cell) : excel_row :=
  fun column =>
    if String.eqb column "First" then CStr first
    else if String.eqb column "Last" then CStr last
    else if String.eqb column "Email" then CStr mail
    else if String.eqb column "Extra" then extra
    else CNaN.

(** The mapping of the three identity columns of such a sheet. *)
Definition identity_keys : key_fields :=
  mkKeys (Some "First") (Some "Last") None (Some "Email") None None None.

(** The values the widgets of the editable view hold for one person. *)
Definition sample_widgets (mail : string) : list (string * session_value) :=
  [ ("last_name", SText "Papas"); ("first_name", SText "Nikos");
    ("phone", SText ""); ("email", SText mail); ("is_member", SText "ΝΑΙ");
    ("member_month", SText "Μάιος"); ("member_year", SInt 2020);
    ("subscription_year", SInt 2024); ("is_athlete", SText "ΟΧΙ");
    ("eom_number", SText ""); ("athlete_from_year", SInt 1980);
    ("save", SBool true) ].

(** A store with one person, one custom field and one attribute value. *)
Definition sample_store (field : string) : database :=
  mkDb [named_person 1 "Nikos" "Papas" "n@x.com"] []
       [mkField 1 field field (Some "ΜΕΛΟΣ")]
       [mkAttr 1 1 1 (Some "12345")] 2 1 2 2.

(* ================================================================== *)
(** ** Outcome of a button handler *)

(** What a handler leaves behind: a warning shown without any write, an
    exception (with the store as the statements committed so far left it), or
    completion. *)
Inductive button_outcome : Type :=
| Warned (db : database)
| Raised (db : database)
| Done (db : database).

Definition store_after (o : button_outcome) : database :=
  match o with
  | Warned db => db
  | Raised db => db
  | Done db => db
  end.

(* ================================================================== *)
(** ** Tab 1: the new-member form *)

(** A statement parameter. *)
Inductive sql_value : Type :=
| VText (s : string)
| VInt (z : Z).

(** [cursor.execute(query, params)]: each [%s] of the statement takes one
    parameter, and the call raises when their numbers differ. *)
Definition bind_parameters (placeholders : nat) (params : list sql_value)
  : option (list sql_value) :=
  if placeholders =? List.length params then Some params else None.

(** The values of the widgets of tab 1 when the save button is pressed; the
    five dictionaries hold, per section, the text typed for each custom
    field, keyed by field name. *)
Record member_form := mkForm {
  nf_last_name : string;
  nf_first_name : string;
  nf_phone : string;
  nf_email : string;
  nf_is_member : string;
  nf_member_month : string;
  nf_member_year : Z;
  nf_subscription_year : Z;
  nf_is_athlete : string;
  nf_eom_number : string;
  nf_athlete_from_year : Z;
  nf_is_student : string;
  nf_student_period_month : string;
  nf_student_period_year : Z;
  nf_student_university : string;
  nf_is_interested : string;
  nf_interested_from_month : string;
  nf_interested_from_year : Z;
  general_custom_inputs : list (string * string);
  member_custom_inputs : list (string * string);
  athlete_custom_inputs : list (string * string);
  student_custom_inputs : list (string * string);
  interested_custom_inputs : list (string * string)
}.

(** The parameter tuple of the INSERT of tab 1, in the order of the source. *)
Definition form_parameters (form : member_form) : list sql_value :=
  [ VText (nf_last_name form); VText (nf_first_name form); VText (nf_phone form);
    VText (nf_email form); VText (nf_is_member form); VText (nf_member_month form);
    VInt (nf_member_year form); VInt (nf_subscription_year form);
    VText (nf_is_athlete form); VText (nf_eom_number form);
    VInt (nf_athlete_from_year form);
    VText (nf_is_student form); VText (nf_student_period_month form);
    VInt (nf_student_period_year form); VText (nf_student_university form);
    VText (nf_is_interested form); VText (nf_interested_from_month form);
    VInt (nf_interested_from_year form) ].

(** The row those parameters describe. *)
Definition form_person (form : member_form) : person :=
  mkPerson 0 (Some (nf_last_name form)) (Some (nf_first_name form))
           (Some (nf_phone form)) (Some (nf_email form))
           (Some (nf_is_member form)) (Some (nf_member_month form))
           (Some (nf_member_year form)) (Some (nf_subscription_year form))
           (Some (nf_is_athlete form)) (Some (nf_eom_number form))
           (Some (nf_athlete_from_year form))
           (Some (nf_is_student form)) (Some (nf_student_period_month form))
           (Some (nf_student_period_year form)) (Some (nf_student_university form))
           (Some (nf_is_interested form)) (Some (nf_interested_from_month form))
           (Some (nf_interested_from_year form)).

(** The number of [%s] in the VALUES list of the INSERT of tab 1. *)
Definition new_member_placeholders : nat := 19.

(** [d[k] = v] on a dictionary kept in insertion order. *)
Fixpoint dict_set (d : list (string * string)) (k v : string) : list (string * string) :=
  match d with
  | [] => [(k, v)]
  | (k', v') :: d' =>
    if String.eqb k' k then (k', v) :: d' else (k', v') :: dict_set d' k v
  end.

(** [{**a, **b}]. *)
Definition dict_merge (a b : list (string * string)) : list (string * string) :=
  fold_left (fun d kv => dict_set d (fst kv) (snd kv)) b a.

Definition all_custom_inputs (form : member_form) : list (string * string) :=
  dict_merge
    (dict_merge
       (dict_merge
          (dict_merge (dict_merge [] (general_custom_inputs form))
                      (member_custom_inputs form))
          (athlete_custom_inputs form))
       (student_custom_inputs form))
    (interested_custom_inputs form).

(** [SELECT id FROM custom_fields WHERE field_name=%s]. *)
Definition select_field_id (name : string) (db : database) : list nat :=
  map cf_id (filter (fun cf => String.eqb (field_name cf) name) (custom_fields db)).

(** The loop over [all_custom_inputs]: an empty value is skipped; [iloc[0]] on
    an empty result and a failing statement raise. *)
Fixpoint save_custom_inputs (member : nat) (inputs : list (string * string))
         (db : database) : button_outcome :=
  match inputs with
  | [] => Done db
  | (name, value) :: rest =>
    if truthy value then
      match select_field_id name db with
      | [] => Raised db
      | f :: _ =>
        match save_member_attribute member f (Some value) db with
        | Some db' => save_custom_inputs member rest db'
        | None => Raised db
        end
      end
    else save_custom_inputs member rest db
  end.

(** The save button of tab 1. *)
Definition add_member_button (form : member_form) (db : database) : button_outcome :=
  if negb (truthy (nf_last_name form)) || negb (truthy (nf_first_name form)) then
    Warned db
  else
    match bind_parameters new_member_placeholders (form_parameters form) with
    | None => Raised db
    | Some _ =>
      let db1 := insert_person (form_person form) db in
      match select_id_by_names (Some (nf_email form)) (Some (nf_first_name form))
                               (Some (nf_last_name form)) db1 with
      | [] => Raised db1
      | member :: _ => save_custom_inputs member (all_custom_inputs form) db1
      end
    end.

(* ================================================================== *)
(** ** Tab 9: the add-field form *)

(** The add button of tab 9. *)
Definition add_field_button `{PyRuntime} (new_field_name : string)
           (new_applicable_domains : list string) (db : database) : button_outcome :=
  if negb (truthy new_field_name) then Warned db
  else
    match new_applicable_domains with
    | [] => Warned db
    | _ :: _ =>
      match add_custom_field (py_strip new_field_name) (py_strip new_field_name)
                             new_applicable_domains db with
      | Some db' => Done db'
      | None => Raised db
      end
    end.

(* ================================================================== *)
(** ** Role tabs and their counts *)

(** [df_all[df_all[col]=="ΝΑΙ"]], the frame shown by tabs 2 to 5. *)
Definition role_view (col : person -> option string) (df_all : list person)
  : list person :=
  filter (fun row => series_eq (col row) "ΝΑΙ") df_all.

(** The dictionary [counts] of the tab titles. *)
Record role_counts := mkCounts {
  count_members : nat;
  count_athletes : nat;
  count_students : nat;
  count_interested : nat;
  count_all : nat
}.

Definition counts (df_all : list person) : role_counts :=
  mkCounts (List.length (role_view is_member df_all))
           (List.length (role_view is_athlete df_all))
           (List.length (role_view is_student df_all))
           (List.length (role_view is_interested df_all))
           (List.length df_all).

(** The filters with the four single choices given and everything else at its
    initial value. *)
Definition role_filters (member athlete student interested : string) : filters :=
  mkFilters member athlete student interested [] [] [] [] [] [] []
            EmptyString EmptyString EmptyString.

(* ================================================================== *)
(** ** The reset button of the filters *)

(** A value of the [filters] dictionary. *)
Inductive filter_value : Type :=
| FStr (s : string)
| FTexts (l : list string)
| FInts (l : list Z).

(** The body of the loop of the reset button for one key. *)
Definition reset_value (k : string) (v : filter_value) : filter_value :=
  match v with
  | FTexts _ => FTexts []
  | FInts _ => FInts []
  | FStr _ =>
    if str_contains "search" k || String.eqb k "student_university"
    then FStr EmptyString else FStr ALL
  end.

Definition as_str (v : filter_value) : string :=
  match v with FStr s => s | _ => EmptyString end.

Definition as_texts (v : filter_value) : list string :=
  match v with FTexts l => l | _ => [] end.

Definition as_ints (v : filter_value) : list Z :=
  match v with FInts l => l | _ => [] end.

(** The filters after the loop has visited every key. *)
Definition reset_filters (f : filters) : filters :=
  mkFilters
    (as_str (reset_value "is_member" (FStr (f_is_member f))))
    (as_str (reset_value "is_athlete" (FStr (f_is_athlete f))))
    (as_str (reset_value "is_student" (FStr (f_is_student f))))
    (as_str (reset_value "is_interested" (FStr (f_is_interested f))))
    (as_texts (reset_value "member_month" (FTexts (f_member_month f))))
    (as_ints (reset_value "member_year" (FInts (f_member_year f))))
    (as_ints (reset_value "subscription_year" (FInts (f_subscription_year f))))
    (as_ints (reset_value "athlete_from_year" (FInts (f_athlete_from_year f))))
    (as_texts (reset_value "student_period_month" (FTexts (f_student_period_month f))))
    (as_ints (reset_value "student_period_year" (FInts (f_student_period_year f))))
    (as_texts (reset_value "student_university" (FTexts (f_student_university f))))
    (as_str (reset_value "eom_number_search" (FStr (f_eom_number_search f))))
    (as_str (reset_value "name_search" (FStr (f_name_search f))))
    (as_str (reset_value "email_search" (FStr (f_email_search f)))).

(* ================================================================== *)
(** ** The widgets of the editable view *)

Definition months : list string :=
  [ "Ιανουάριος"; "Φεβρουάριος"; "Μάρτιος"; "Απρίλιος"; "Μάιος"; "Ιούνιος";
    "Ιούλιος"; "Αύγουστος"; "Σεπτέμβριος"; "Οκτώβριος"; "Νοέμβριος"; "Δεκέμβριος" ].

(** [list(range(first, first + n))]. *)
Fixpoint year_range (first : Z) (n : nat) : list Z :=
  match n with
  | O => []
  | S n' => first :: year_range (first + 1) n'
  end.

Definition years_2000_2050 : list Z := year_range 2000 51.
Definition years_2010_2050 : list Z := year_range 2010 41.
Definition years_1980_2050 : list Z := year_range 1980 71.

(** [options.index(x)]: the first position of [x], [None] for Python's
    ValueError. *)
Fixpoint index_of {A : Type} (eqb : A -> A -> bool) (x : A) (options : list A)
  : option nat :=
  match options with
  | [] => None
  | y :: rest =>
    if eqb y x then Some 0
    else match index_of eqb x rest with
         | Some i => Some (S i)
         | None => None
         end
  end.

(** [x or ""] on a nullable text. *)
Definition or_empty (v : option string) : string :=
  match v with
  | Some s => s
  | None => EmptyString
  end.

(** [index=0 if row[col]=="ΟΧΙ" else 1]. *)
Definition flag_index (v : option string) : nat :=
  if series_eq v "ΟΧΙ" then 0 else 1.

(** [months.index(m) if m in months else 0]. *)
Definition month_index (v : option string) : nat :=
  match v with
  | Some m => match index_of String.eqb m months with
              | Some i => i
              | None => 0
              end
  | None => 0
  end.

(** The guarded index of [member_year]: 0 for a missing or unlisted year. *)
Definition member_year_index (v : option Z) : nat :=
  match v with
  | Some y => match index_of Z.eqb y years_2000_2050 with
              | Some i => i
              | None => 0
              end
  | None => 0
  end.

(** [0 if pd.isna(y) else options.index(y)]: raises on an unlisted year. *)
Definition year_index (options : list Z) (v : option Z) : option nat :=
  match v with
  | Some y => index_of Z.eqb y options
  | None => Some 0
  end.

(** The values with which the widgets of one row are created, in the order of
    the source; [None] when the computation of an index raises. *)
Definition default_widgets (row : person) : option (list (string * session_value)) :=
  sub <- year_index years_2010_2050 (subscription_year row) ;;
  ath <- year_index years_1980_2050 (athlete_from_year row) ;;
  Some
    [ ("last_name", SText (or_empty (last_name row)));
      ("first_name", SText (or_empty (first_name row)));
      ("phone", SText (or_empty (phone row)));
      ("email", SText (or_empty (email row)));
      ("is_member", SText (nth (flag_index (is_member row)) ["ΟΧΙ"; "ΝΑΙ"] EmptyString));
      ("member_month", SText (nth (month_index (member_month row)) months EmptyString));
      ("member_year", SInt (nth (member_year_index (member_year row)) years_2000_2050 0%Z));
      ("subscription_year", SInt (nth sub years_2010_2050 0%Z));
      ("is_athlete", SText (nth (flag_index (is_athlete row)) ["ΟΧΙ"; "ΝΑΙ"] EmptyString));
      ("eom_number", SText (or_empty (eom_number row)));
      ("athlete_from_year", SInt (nth ath years_1980_2050 0%Z)) ].

(** The eleven columns as the form shows them: a missing text is empty, a flag
    other than no is yes, a missing or unlisted month or member year is the
    first option, a missing subscription or athlete year is the first
    option. *)
Definition shown_flag (v : option string) : string :=
  if series_eq v "ΟΧΙ" then "ΟΧΙ" else "ΝΑΙ".

Definition shown_month (v : option string) : string :=
  match v with
  | Some m => if existsb (fun x => String.eqb x m) months then m else "Ιανουάριος"
  | None => "Ιανουάριος"
  end.

Definition in_years (first last : Z) (y : Z) : bool :=
  ((first <=? y) && (y <=? last))%Z.

Definition shown_year (first last : Z) (guarded : bool) (v : option Z) : Z :=
  match v with
  | Some y => if guarded && negb (in_years first last y) then first else y
  | None => first
  end.

Definition shown_values (row : person) : person_edit :=
  mkEdit (Some (or_empty (last_name row))) (Some (or_empty (first_name row)))
         (Some (or_empty (phone row))) (Some (or_empty (email row)))
         (Some (shown_flag (is_member row))) (Some (shown_month (member_month row)))
         (Some (shown_year 2000 2050 true (member_year row)))
         (Some (shown_year 2010 2050 false (subscription_year row)))
         (Some (shown_flag (is_athlete row))) (Some (or_empty (eom_number row)))
         (Some (shown_year 1980 2050 false (athlete_from_year row))).

(** The row can be drawn: its subscription and athlete years are missing or
    among the options. *)
Definition drawable (row : person) : bool :=
  match subscription_year row with
  | Some y => in_years 2010 2050 y
  | None => true
  end
  &&
  match athlete_from_year row with
  | Some y => in_years 1980 2050 y
  | None => true
  end.

(** The eleven columns already hold what the form shows. *)
Definition form_shaped (row : person) : Prop :=
  (exists s, last_name row = Some s) /\ (exists s, first_name row = Some s) /\
  (exists s, phone row = Some s) /\ (exists s, email row = Some s) /\
  (exists s, eom_number row = Some s) /\
  (is_member row = Some "ΟΧΙ" \/ is_member row = Some "ΝΑΙ") /\
  (is_athlete row = Some "ΟΧΙ" \/ is_athlete row = Some "ΝΑΙ") /\
  (exists m, member_month row = Some m /\ In m months) /\
  (exists y, member_year row = Some y /\ in_years 2000 2050 y = true) /\
  (exists y, subscription_year row = Some y /\ in_years 2010 2050 y = true) /\
  (exists y, athlete_from_year row = Some y /\ in_years 1980 2050 y = true).

(** Strictly increasing ids and unique names of the field definitions, ids
    below the next value of the sequence. *)
Fixpoint ids_increase (bound : nat) (l : list custom_field) : Prop :=
  match l with
  | [] => True
  | cf :: rest => bound <= cf_id cf /\ ids_increase (S (cf_id cf)) rest
  end.

Definition field_keys_ok (db : database) : Prop :=
  ids_increase 0 (custom_fields db) /\
  Forall (fun cf => cf_id cf < custom_fields_seq db) (custom_fields db) /\
  NoDup (map field_name (custom_fields db)).

(** The three identity cells of a sheet row are text. *)
Definition text_keys (kf : key_fields) (row : excel_row) : Prop :=
  forall c, In (Some c) [k_first_name kf; k_last_name kf; k_email kf] ->
            exists s, row c = CStr s.

(** The value a list of widget values holds for a widget name. *)
Fixpoint widget_value (name : string) (ws : list (string * session_value))
  : option session_value :=
  match ws with
  | [] => None
  | (n, v) :: ws' => if String.eqb n name then Some v else widget_value name ws'
  end.

(** A person as tab 6 leaves it after a save: every column of the form set. *)
Definition shaped_person : person :=
  mkPerson 1 (Some "Papas") (Some "Nikos") (Some "") (Some "n@x.com") (Some "ΝΑΙ")
           (Some "Μάιος") (Some 2020%Z) (Some 2024%Z) (Some "ΟΧΙ") (Some "")
           (Some 1980%Z) None None None None None None None.

(** The actions of a sequence other than the bare INSERT into [people]: the
    import, the editable view, the settings and the field forms. *)
Definition no_direct_insert (ops : list operation) : Prop :=
  Forall (fun op => match op with OpInsertPerson _ => False | _ => True end) ops.

(** The student and prospect columns of a row are all NULL. *)
Definition student_columns_null (p : person) : Prop :=
  is_student p = None /\ student_period_month p = None /\
  student_period_year p = None /\ student_university p = None /\
  is_interested p = None /\ interested_from_month p = None /\
  interested_from_year p = None.
(** * Properties *)

(** ** Which tables each function touches *)

Lemma save_member_attribute_frame m f v db db' :
  save_member_attribute m f v db = Some db' ->
  settings db' = settings db /\ people db' = people db /\
  custom_fields db' = custom_fields db /\ people_seq db' = people_seq db.
Proof.
  unfold save_member_attribute, insert_member_attribute.
  destruct (filter (same_pair m f) (member_attributes db)).
  - destruct (person_exists m db && field_exists f db); intros E; inversion E; auto.
  - intros E; inversion E; auto.
Qed.

(** A property of the store that [save_member_attribute] and the INSERT into
    [people] preserve is preserved by the loops built from them. *)
Section Preserved.
Context `{PyRuntime}.
Variable P : database -> Prop.
Hypothesis P_save :
  forall m f v db db', save_member_attribute m f v db = Some db' -> P db -> P db'.
Hypothesis P_insert : forall p db, P db -> P (insert_person p db).
Hypothesis P_update : forall rid e db, P db -> P (update_person rid e db).

Lemma write_cells_preserve member row data mapping acc :
  P (fst acc) -> P (fst (fold_left (write_cell member row data) mapping acc)).
Proof.
  revert acc; induction mapping as [|fm mapping IH]; intros acc I; simpl; auto.
  apply IH; destruct acc as [db ws]; unfold write_cell; simpl in *.
  destruct (truthy _ && _); simpl; auto.
  destruct (save_member_attribute _ _ _ db) eqn:E; simpl; eauto.
Qed.

Lemma import_row_preserves existing kf mapping st row :
  P (st_db st) -> P (st_db (import_row existing kf mapping st row)).
Proof.
  intros I; unfold import_row.
  destruct (is_duplicate _ _); simpl; auto.
  destruct (select_id_by_names _ _ _ _); simpl; auto.
  destruct (fold_left _ mapping _) as [db2 ws] eqn:E; simpl.
  change db2 with (fst (db2, ws)); rewrite <- E.
  apply write_cells_preserve; simpl; auto.
Qed.

Lemma import_rows_preserve kf mapping rows db :
  P db -> P (st_db (import_rows kf mapping rows db)).
Proof.
  unfold import_rows; intros I.
  change db with (st_db (mkImport db 0 0 [])) in I.
  revert I; generalize (mkImport db 0 0 []) as st.
  generalize (select_names db) as existing.
  induction rows as [|row rows IH]; intros existing st I; simpl; auto.
  apply IH, import_row_preserves, I.
Qed.

Lemma save_loop_preserves (g : attribute_row -> option string) rid attrs acc db' :
  fold_left (fun acc attr =>
               d <- acc ;; save_member_attribute rid (ar_id attr) (g attr) d)
            attrs acc = Some db' ->
  exists db0, acc = Some db0 /\ (P db0 -> P db').
Proof.
  revert acc; induction attrs as [|a attrs IH]; intros acc; simpl.
  - intros ->; eauto.
  - intros E; apply IH in E; destruct E as (d1 & E1 & S1).
    destruct acc as [d0|]; [|discriminate].
    exists d0; split; eauto.
Qed.

Lemma save_changes_preserves prefix ss rid db db' :
  save_changes prefix ss rid db = Some db' -> P db -> P db'.
Proof.
  unfold save_changes; intros E I.
  repeat match type of E with
         | match ?x with Some _ => _ | None => None end = Some _ =>
           destruct x; [|discriminate]
         end.
  apply save_loop_preserves in E; destruct E as (d0 & E0 & S0).
  inversion E0; subst d0; auto.
Qed.

End Preserved.

Lemma import_rows_settings `{PyRuntime} kf mapping rows db :
  settings (st_db (import_rows kf mapping rows db)) = settings db.
Proof.
  apply (import_rows_preserve (fun d => settings d = settings db)); auto.
  intros m f v d d' S E.
  apply save_member_attribute_frame in S; destruct S as (S & _); congruence.
Qed.

Lemma save_changes_settings prefix ss rid db db' :
  save_changes prefix ss rid db = Some db' -> settings db' = settings db.
Proof.
  intros S.
  apply (save_changes_preserves (fun d => settings d = settings db)) in S; auto.
  intros m f v d d' S' E.
  apply save_member_attribute_frame in S'; destruct S' as (S' & _); congruence.
Qed.

Section Settings.
Context `{PyRuntime}.

Lemma exec_settings op db :
  List.length (settings db) <= 1 -> List.length (settings (exec op db)) <= 1.
Proof.
  intros I; destruct op; simpl; auto.
  - unfold add_custom_field, insert_custom_field.
    destruct (existsb _ _); simpl; auto.
  - destruct (save_member_attribute m f v db) eqn:E; simpl; auto.
    apply save_member_attribute_frame in E; destruct E as (E & _); rewrite E; auto.
  - destruct (save_changes "all" ss rid db) eqn:E; simpl; auto.
    apply save_changes_settings in E; rewrite E; auto.
  - rewrite import_rows_settings; auto.
Qed.

Lemma run_from_settings ops db :
  List.length (settings db) <= 1 ->
  List.length (settings (fold_left (fun d op => exec op d) ops db)) <= 1.
Proof.
  revert db; induction ops as [|op ops IH]; intros db I; simpl; auto.
  apply IH, exec_settings, I.
Qed.

(** C9.  In every store reached from the empty schema by the operator's
    actions the settings table holds at most one row; [set_club_name] first
    empties the table and then inserts one row carrying the new name, and
    [get_club_name] afterwards returns that name. *)
Theorem settings_single_row (ops : list operation) (name : string) :
  let db := run ops in
  List.length (settings db) <= 1 /\
  settings (delete_all_settings db) = [] /\
  set_club_name name db = insert_setting name (delete_all_settings db) /\
  settings (set_club_name name db) = [mkSetting (settings_seq db) (Some name)] /\
  get_club_name (set_club_name name db) = Some name.
Proof.
  simpl; repeat split.
  apply run_from_settings; simpl; lia.
Qed.

End Settings.

(* ================================================================== *)
(** ** Deleting a custom field *)

Lemma filter_idem {A} (p : A -> bool) (l : list A) :
  filter p (filter p l) = filter p l.
Proof.
  induction l as [|x l IH]; simpl; auto.
  destruct (p x) eqn:E; simpl; rewrite ?E, IH; reflexivity.
Qed.

Lemma get_member_attributes_defined m db row :
  In row (get_member_attributes m db) ->
  exists ma cf, In ma (member_attributes db) /\ In cf (custom_fields db) /\
                member_id ma = m /\ field_id ma = cf_id cf /\
                row = mkAttrRow (cf_id cf) (field_name cf) (display_name cf)
                                (field_value ma).
Proof.
  unfold get_member_attributes; intros I.
  apply in_flat_map in I; destruct I as (ma & Ima & I).
  destruct (member_id ma =? m) eqn:Em; [|contradiction].
  apply in_map_iff in I; destruct I as (cf & <- & Icf).
  apply filter_In in Icf; destruct Icf as (Icf & Eid).
  apply Nat.eqb_eq in Em, Eid.
  exists ma, cf; auto.
Qed.

(** C6.  [delete_custom_field] runs two statements in order: the first removes
    every attribute row of the field and leaves the definitions alone, the
    second removes the definition.  Afterwards no attribute row and no
    definition carries the field's id, the other attribute rows are kept, and
    [get_member_attributes] returns no row of that field for any person. *)
Theorem delete_custom_field_cascade (f : nat) (db : database) :
  delete_custom_field f db = delete_field_row f (delete_attributes_of_field f db) /\
  (forall ma, In ma (member_attributes (delete_attributes_of_field f db)) ->
              field_id ma <> f) /\
  custom_fields (delete_attributes_of_field f db) = custom_fields db /\
  member_attributes (delete_custom_field f db) =
    filter (fun ma => negb (field_id ma =? f)) (member_attributes db) /\
  custom_fields (delete_custom_field f db) =
    filter (fun cf => negb (cf_id cf =? f)) (custom_fields db) /\
  (forall p row, In row (get_member_attributes p (delete_custom_field f db)) ->
                 ar_id row <> f).
Proof.
  split; [reflexivity|].
  split.
  { simpl; intros ma I; apply filter_In in I; destruct I as (_ & E).
    apply negb_true_iff, Nat.eqb_neq in E; exact E. }
  split; [reflexivity|].
  split; [simpl; apply filter_idem|].
  split; [reflexivity|].
  intros p row I.
  apply get_member_attributes_defined in I.
  destruct I as (ma & cf & _ & Icf & _ & _ & ->); simpl in *.
  apply filter_In in Icf; destruct Icf as (_ & E).
  apply negb_true_iff, Nat.eqb_neq in E; exact E.
Qed.

(* ================================================================== *)
(** ** Saving an attribute is an upsert *)

Lemma filter_pair_update m f m' f' v l :
  filter (same_pair m' f')
         (map (fun ma => if same_pair m f ma then set_value v ma else ma) l) =
  map (fun ma => if same_pair m f ma then set_value v ma else ma)
      (filter (same_pair m' f') l).
Proof.
  induction l as [|x l IH]; simpl; auto.
  assert (E : same_pair m' f' (if same_pair m f x then set_value v x else x)
              = same_pair m' f' x)
    by (destruct (same_pair m f x); reflexivity).
  rewrite E; destruct (same_pair m' f' x); simpl; rewrite IH; reflexivity.
Qed.

Lemma save_member_attribute_rows m f v db db' :
  save_member_attribute m f v db = Some db' ->
  (rows_of_pair m f db = [] /\
   member_attributes db' =
     (member_attributes db ++ [mkAttr (member_attributes_seq db) m f v])%list) \/
  (rows_of_pair m f db <> [] /\
   member_attributes db' =
     map (fun ma => if same_pair m f ma then set_value v ma else ma)
         (member_attributes db)).
Proof.
  unfold save_member_attribute, insert_member_attribute, rows_of_pair.
  destruct (filter (same_pair m f) (member_attributes db)) eqn:E.
  - destruct (person_exists m db && field_exists f db); intros S; inversion S.
    left; auto.
  - intros S; inversion S; right; split; [discriminate | reflexivity].
Qed.

Lemma same_pair_refl m f i v : same_pair m f (mkAttr i m f v) = true.
Proof. unfold same_pair; simpl; rewrite !Nat.eqb_refl; reflexivity. Qed.

Lemma save_member_attribute_pair m f v db db' :
  save_member_attribute m f v db = Some db' ->
  List.length (rows_of_pair m f db) <= 1 ->
  exists row, rows_of_pair m f db' = [row] /\ field_value row = v.
Proof.
  intros S U; apply save_member_attribute_rows in S.
  destruct S as [(E & M) | (N & M)]; unfold rows_of_pair in *; rewrite M.
  - rewrite filter_app, E; simpl; rewrite same_pair_refl.
    eexists; split; reflexivity.
  - rewrite filter_pair_update.
    destruct (filter (same_pair m f) (member_attributes db)) as [|r [|r' rest]] eqn:E;
      [congruence| |simpl in U; lia].
    assert (I : In r (filter (same_pair m f) (member_attributes db)))
      by (rewrite E; left; reflexivity).
    apply filter_In in I; destruct I as (_ & P).
    simpl; rewrite P; eexists; split; reflexivity.
Qed.

Lemma save_member_attribute_unique m f v db db' :
  save_member_attribute m f v db = Some db' -> unique_pairs db -> unique_pairs db'.
Proof.
  intros S U m' f'.
  destruct ((m' =? m) && (f' =? f)) eqn:Q.
  - apply andb_true_iff in Q; destruct Q as (Qm & Qf).
    apply Nat.eqb_eq in Qm, Qf; subst m' f'.
    destruct (save_member_attribute_pair _ _ _ _ _ S (U m f)) as (row & R & _).
    rewrite R; simpl; lia.
  - pose proof (U m' f') as U'.
    apply save_member_attribute_rows in S.
    destruct S as [(_ & M) | (_ & M)]; unfold rows_of_pair in *; rewrite M.
    + rewrite filter_app; simpl.
      replace (same_pair m' f' (mkAttr (member_attributes_seq db) m f v)) with false.
      * rewrite app_nil_r; exact U'.
      * unfold same_pair; simpl.
        rewrite (Nat.eqb_sym m m'), (Nat.eqb_sym f f'), Q; reflexivity.
    + rewrite filter_pair_update, length_map; exact U'.
Qed.

Lemma filter_filter_length {A} (p q : A -> bool) (l : list A) :
  List.length (filter p (filter q l)) <= List.length (filter p l).
Proof.
  induction l as [|x l IH]; simpl; auto.
  destruct (q x); simpl; destruct (p x); simpl; lia.
Qed.

Lemma save_all_unique m f values db db' :
  save_all m f values db = Some db' -> unique_pairs db -> unique_pairs db'.
Proof.
  unfold save_all; revert db; induction values as [|v values IH]; intros db; simpl.
  - intros E; inversion E; auto.
  - destruct (save_member_attribute m f v db) as [d|] eqn:S.
    + intros E U; apply (IH d E), (save_member_attribute_unique _ _ _ _ _ S U).
    + intros E; exfalso; clear -E.
      induction values as [|w values IH]; simpl in E; [discriminate | auto].
Qed.

Lemma unique_pairs_filter (q : member_attribute -> bool) db db' :
  member_attributes db' = filter q (member_attributes db) ->
  unique_pairs db -> unique_pairs db'.
Proof.
  intros E U m f; unfold rows_of_pair; rewrite E.
  eapply Nat.le_trans; [apply filter_filter_length | apply U].
Qed.

Lemma unique_pairs_same db db' :
  member_attributes db' = member_attributes db -> unique_pairs db -> unique_pairs db'.
Proof. intros E U m f; unfold rows_of_pair; rewrite E; apply U. Qed.

Lemma last_cons {A} (l : list A) (w v : A) : last (w :: l) v = last l w.
Proof.
  revert w v; induction l as [|o l IH]; intros w v; [reflexivity|].
  change (last (w :: o :: l) v) with (last (o :: l) v).
  rewrite (IH o v), (IH o w); reflexivity.
Qed.

Section Upsert.
Context `{PyRuntime}.

Lemma exec_unique_pairs op db : unique_pairs db -> unique_pairs (exec op db).
Proof.
  intros U; destruct op; simpl.
  - apply (unique_pairs_same db); auto.
  - unfold add_custom_field, insert_custom_field.
    destruct (existsb _ _); simpl; auto.
  - apply (unique_pairs_filter (fun ma => negb (field_id ma =? f)) db); auto.
    simpl; apply filter_idem.
  - destruct (save_member_attribute m f v db) eqn:E; simpl; auto.
    eapply save_member_attribute_unique; eauto.
  - apply (unique_pairs_same db); auto.
  - destruct (save_changes "all" ss rid db) eqn:E; simpl; auto.
    eapply (save_changes_preserves unique_pairs); eauto;
      first [ apply save_member_attribute_unique
            | intros ? ? ?; apply unique_pairs_same; reflexivity ].
  - apply (unique_pairs_filter (fun ma => negb (member_id ma =? rid)) db); auto.
    simpl; apply filter_idem.
  - apply (import_rows_preserve unique_pairs); auto;
      first [ apply save_member_attribute_unique
            | intros ? ?; apply unique_pairs_same; reflexivity ].
Qed.

Lemma run_unique_pairs ops : unique_pairs (run ops).
Proof.
  unfold run.
  assert (U : unique_pairs init_db) by (intros m f; simpl; lia).
  revert U; generalize init_db as db.
  induction ops as [|op ops IH]; intros db U; simpl; auto.
  apply IH, exec_unique_pairs, U.
Qed.

(** C5.  Take any store reached by the operator's actions and any non-empty
    sequence of values written with [save_member_attribute] to one
    (member, field) pair, all calls completing.  Afterwards exactly one
    attribute row exists for the pair and it holds the last value written;
    in particular writing the same value any number of times leaves one
    row. *)
Theorem save_member_attribute_upsert
        (ops : list operation) (m f : nat) (v : option string)
        (values : list (option string)) (db' : database) :
  save_all m f (v :: values) (run ops) = Some db' ->
  exists row, rows_of_pair m f db' = [row] /\
              member_id row = m /\ field_id row = f /\
              field_value row = last values v.
Proof.
  intros S.
  assert (G : forall values v d d',
             unique_pairs d -> save_all m f (v :: values) d = Some d' ->
             exists row, rows_of_pair m f d' = [row] /\ field_value row = last values v).
  { clear; induction values as [|w values IH]; intros v d d' U S.
    - unfold save_all in S; simpl in S.
      destruct (save_member_attribute_pair _ _ _ _ _ S (U m f)) as (row & R & V).
      exists row; auto.
    - unfold save_all in S; simpl in S.
      destruct (save_member_attribute m f v d) as [d1|] eqn:S1.
      + destruct (IH w d1 d') as (row & R & V).
        * eapply save_member_attribute_unique; eauto.
        * exact S.
        * exists row; split; auto.
          rewrite V; symmetry; apply last_cons.
      + exfalso; clear -S.
        assert (N : forall l, fold_left
                   (fun acc v => d <- acc ;; save_member_attribute m f v d) l None
                   = None) by (induction l; simpl; auto).
        simpl in S; rewrite N in S; discriminate. }
  destruct (G values v (run ops) db' (run_unique_pairs ops) S) as (row & R & V).
  exists row; split; auto.
  assert (I : In row (rows_of_pair m f db')) by (rewrite R; left; reflexivity).
  apply filter_In in I; destruct I as (_ & P).
  apply andb_true_iff in P; destruct P as (Pm & Pf).
  apply Nat.eqb_eq in Pm, Pf; auto.
Qed.

End Upsert.

Lemma save_member_attribute_upsert_witness :
  exists db',
    save_all 1 1 [Some "a"; Some "b"; Some "b"]
             (@run ascii_runtime
                   [OpInsertPerson (imported_person (mkData None None None None None None None));
                    OpAddCustomField "AMKA" "AMKA" ["ΜΕΛΟΣ"]]) = Some db' /\
    exists row, rows_of_pair 1 1 db' = [row] /\
                member_id row = 1 /\ field_id row = 1 /\
                field_value row = Some "b".
Proof.
  eexists; split; [vm_compute; reflexivity|].
  apply (@save_member_attribute_upsert ascii_runtime
           [OpInsertPerson (imported_person (mkData None None None None None None None));
            OpAddCustomField "AMKA" "AMKA" ["ΜΕΛΟΣ"]]
           1 1 (Some "a") [Some "b"; Some "b"]).
  vm_compute; reflexivity.
Defined.

(* ================================================================== *)
(** ** Fields of a domain *)

Lemma insert_by_id_In x y l : In x (insert_by_id y l) <-> x = y \/ In x l.
Proof.
  induction l as [|z l IH]; simpl.
  - intuition.
  - destruct (cf_id y <=? cf_id z); simpl; rewrite ?IH; intuition.
Qed.

Lemma get_custom_fields_In x db : In x (get_custom_fields db) <-> In x (custom_fields db).
Proof.
  unfold get_custom_fields.
  induction (custom_fields db) as [|y l IH]; simpl; [tauto|].
  rewrite insert_by_id_In, IH; intuition.
Qed.

Lemma domain_mask_literal `{PyRuntime} domain search cf :
  (forall s, search s = str_contains domain s) ->
  domain_mask search cf = true <-> applies_to domain cf.
Proof.
  intros L; unfold domain_mask, applies_to, series_eq, contains_na_false.
  destruct (applicable_domains cf) as [s|]; simpl.
  - rewrite orb_true_iff, String.eqb_eq, L; split.
    + intros [-> | C]; [left; reflexivity | right; eauto].
    + intros [E | (s' & E & C)]; inversion E; subst; auto.
  - split; [discriminate|].
    intros [E | (s' & E & _)]; discriminate.
Qed.

Section FieldsOfDomain.
Context `{PyRuntime}.

(** C2.  For every content of the custom_fields table and every domain tag
    that the pattern engine searches literally, [get_custom_fields_by_domain]
    returns, in id order, exactly the fields whose stored
    [applicable_domains] equals the sentinel or contains the tag as a
    substring; membership of the tag in a set plays no role. *)
Theorem get_custom_fields_by_domain_substring (domain : string) (db : database) :
  searches_literally domain ->
  exists result,
    get_custom_fields_by_domain domain db = Some result /\
    result = filter (fun cf => series_eq (applicable_domains cf) ALL ||
                               contains_na_false (str_contains domain)
                                                 (applicable_domains cf))
                    (get_custom_fields db) /\
    forall cf, In cf result <-> In cf (custom_fields db) /\ applies_to domain cf.
Proof.
  intros (search & C & L).
  exists (filter (domain_mask search) (get_custom_fields db)).
  assert (M : forall cf, domain_mask search cf = domain_mask (str_contains domain) cf).
  { intros cf; unfold domain_mask, contains_na_false.
    destruct (applicable_domains cf); [rewrite L|]; reflexivity. }
  split; [|split].
  - unfold get_custom_fields_by_domain; rewrite C.
    destruct (get_custom_fields db); reflexivity.
  - apply filter_ext, M.
  - intros cf; rewrite filter_In, get_custom_fields_In.
    rewrite (domain_mask_literal domain search cf L); reflexivity.
Qed.

End FieldsOfDomain.

Lemma literal_re_searches_literally pat :
  regex_literal pat = true -> @searches_literally ascii_runtime pat.
Proof.
  intros L; exists (str_contains pat); split; [|reflexivity].
  simpl; unfold literal_re; rewrite L; reflexivity.
Qed.

Lemma get_custom_fields_by_domain_substring_witness :
  exists result,
    @get_custom_fields_by_domain ascii_runtime "ΜΕΛ"
      (mkDb [] [] [mkField 1 "AMKA" "AMKA" (Some "ΜΕΛΟΣ,ΑΘΛΗΤΗΣ")] [] 1 1 2 1)
    = Some result /\
    result = filter (fun cf => series_eq (applicable_domains cf) ALL ||
                               contains_na_false (str_contains "ΜΕΛ")
                                                 (applicable_domains cf))
                    (get_custom_fields
                       (mkDb [] [] [mkField 1 "AMKA" "AMKA" (Some "ΜΕΛΟΣ,ΑΘΛΗΤΗΣ")] []
                             1 1 2 1)) /\
    forall cf, In cf result <->
               In cf [mkField 1 "AMKA" "AMKA" (Some "ΜΕΛΟΣ,ΑΘΛΗΤΗΣ")] /\
               applies_to "ΜΕΛ" cf.
Proof.
  apply (@get_custom_fields_by_domain_substring ascii_runtime "ΜΕΛ"
           (mkDb [] [] [mkField 1 "AMKA" "AMKA" (Some "ΜΕΛΟΣ,ΑΘΛΗΤΗΣ")] [] 1 1 2 1)).
  apply literal_re_searches_literally; vm_compute; reflexivity.
Defined.

(* ================================================================== *)
(** ** Substrings of a comma-joined list *)

Lemma prefix_refl s : prefix s s = true.
Proof.
  induction s as [|c s IH]; simpl; auto.
  destruct (ascii_dec c c); [exact IH | congruence].
Qed.

Lemma prefix_app p a b : prefix p a = true -> prefix p (a ++ b) = true.
Proof.
  revert a; induction p as [|c p IH]; intros a;
    [intros _; destruct (a ++ b)%string; reflexivity|].
  destruct a as [|c' a]; simpl; [discriminate|].
  destruct (ascii_dec c c'); auto.
Qed.

Lemma str_contains_unfold p s :
  str_contains p s =
  prefix p s || match s with EmptyString => false | String _ s' => str_contains p s' end.
Proof. destruct s; reflexivity. Qed.

Lemma str_contains_refl s : str_contains s s = true.
Proof. rewrite str_contains_unfold, prefix_refl; reflexivity. Qed.

Lemma str_contains_app_l p a b :
  str_contains p a = true -> str_contains p (a ++ b) = true.
Proof.
  induction a as [|c a IH]; rewrite str_contains_unfold; intros C.
  - rewrite orb_false_r in C.
    destruct p; [|discriminate]; destruct b; reflexivity.
  - apply orb_true_iff in C; simpl append; rewrite str_contains_unfold.
    apply orb_true_iff; destruct C as [C | C].
    + left; apply (prefix_app _ (String c a) b C).
    + right; auto.
Qed.

Lemma str_contains_app_r p a b :
  str_contains p b = true -> str_contains p (a ++ b) = true.
Proof.
  intros C; induction a as [|c a IH]; simpl append; auto.
  rewrite str_contains_unfold, IH; apply orb_true_r.
Qed.

Lemma prefix_before_comma p a b :
  has_comma p = false -> prefix p (a ++ String "," b) = true -> prefix p a = true.
Proof.
  revert a; induction p as [|c p IH]; intros a N P; [destruct a; reflexivity|].
  simpl in N; apply orb_false_iff in N; destruct N as (Nc & Np).
  destruct a as [|c' a]; simpl in *.
  - destruct (ascii_dec c ","); [|discriminate].
    subst c; discriminate.
  - destruct (ascii_dec c c'); [|discriminate]; auto.
Qed.

Lemma str_contains_around_comma p a b :
  truthy p = true -> has_comma p = false ->
  str_contains p (a ++ String "," b) = true ->
  str_contains p a = true \/ str_contains p b = true.
Proof.
  intros T N; induction a as [|c a IH]; simpl append;
    rewrite str_contains_unfold; intros C; apply orb_true_iff in C.
  - destruct C as [C | C]; auto.
    apply (prefix_before_comma p EmptyString b N) in C.
    destruct p; discriminate.
  - destruct C as [C | C].
    + left; rewrite str_contains_unfold.
      rewrite (prefix_before_comma p (String c a) b N C); reflexivity.
    + destruct (IH C) as [L | R]; auto.
      left; rewrite str_contains_unfold, L; apply orb_true_r.
Qed.

Lemma str_contains_join_elim p l :
  truthy p = true -> has_comma p = false ->
  str_contains p (String.concat "," l) = true ->
  exists t, In t l /\ str_contains p t = true.
Proof.
  intros T N; induction l as [|x [|y l] IH]; intros C.
  - destruct p; discriminate.
  - exists x; simpl in *; auto.
  - change (String.concat "," (x :: y :: l))
      with (x ++ String "," (String.concat "," (y :: l)))%string in C.
    apply str_contains_around_comma in C; auto.
    destruct C as [C | C].
    + exists x; simpl; auto.
    + destruct (IH C) as (t & I & Ct); exists t; split; [right|]; auto.
Qed.

Lemma str_contains_join_intro p l :
  In p l -> str_contains p (String.concat "," l) = true.
Proof.
  induction l as [|x [|y l] IH]; intros I.
  - contradiction.
  - destruct I as [-> | []]; apply str_contains_refl.
  - change (String.concat "," (x :: y :: l))
      with (x ++ String "," (String.concat "," (y :: l)))%string.
    destruct I as [-> | I].
    + apply str_contains_app_l, str_contains_refl.
    + apply str_contains_app_r.
      rewrite str_contains_unfold, (IH I); apply orb_true_r.
Qed.

Lemma has_comma_app a b : has_comma (a ++ String "," b) = true.
Proof.
  unfold has_comma; induction a as [|c a IH]; simpl; [reflexivity|].
  rewrite IH; apply orb_true_r.
Qed.

Lemma valid_tags_spec tags t :
  valid_tags tags = true -> In t tags ->
  truthy t = true /\ has_comma t = false /\ t <> ALL /\
  forall u, In u tags -> str_contains t u = true -> t = u.
Proof.
  unfold valid_tags; intros V I.
  rewrite forallb_forall in V; specialize (V t I).
  repeat (apply andb_true_iff in V; destruct V as (V & ?)).
  repeat split; auto.
  - apply negb_true_iff; assumption.
  - apply String.eqb_neq, negb_true_iff; assumption.
  - intros u Iu C.
    rewrite forallb_forall in H; specialize (H u Iu).
    rewrite C in H; simpl in H; rewrite orb_false_r in H.
    apply String.eqb_eq, H.
Qed.

Lemma stored_domains_not_ALL tags applicable :
  valid_tags tags = true -> incl applicable tags -> applicable <> [] ->
  stored_domains applicable <> ALL.
Proof.
  intros V I N E.
  destruct applicable as [|x [|y l]]; [congruence| |].
  - simpl in E; subst x.
    destruct (valid_tags_spec tags ALL V (I ALL (or_introl eq_refl))) as (_ & _ & A & _).
    congruence.
  - unfold stored_domains in E.
    change (String.concat "," (x :: y :: l))
      with (x ++ String "," (String.concat "," (y :: l)))%string in E.
    pose proof (has_comma_app x (String.concat "," (y :: l))) as C.
    rewrite E in C; discriminate.
Qed.

Section DefineField.
Context `{PyRuntime}.

(** C1.  Let the category tags be valid for the joined-string encoding, as
    the five tags of the script are.  When [add_custom_field] succeeds for a
    list of such tags, the new row stores the sentinel if the list is empty
    and the comma-joined tags otherwise, and [get_custom_fields_by_domain]
    for a tag returns the new field exactly when the tag is in the list or
    the list is empty. *)
Theorem add_custom_field_then_by_domain
        (tags : list string) (name display : string) (applicable : list string)
        (domain : string) (db db' : database) :
  valid_tags tags = true -> incl applicable tags -> In domain tags ->
  searches_literally domain ->
  add_custom_field name display applicable db = Some db' ->
  let new := mkField (custom_fields_seq db) name display
                     (Some (stored_domains applicable)) in
  custom_fields db' = (custom_fields db ++ [new])%list /\
  (applicable = [] -> applicable_domains new = Some ALL) /\
  (applicable <> [] ->
   applicable_domains new = Some (String.concat "," applicable)) /\
  exists result,
    get_custom_fields_by_domain domain db' = Some result /\
    (In new result <-> In domain applicable \/ applicable = []).
Proof.
  intros V I D (search & C & L) A new.
  assert (F : custom_fields db' = (custom_fields db ++ [new])%list).
  { unfold add_custom_field, insert_custom_field in A.
    destruct (existsb _ _); [discriminate|].
    inversion A; reflexivity. }
  split; [exact F|].
  split; [intros ->; reflexivity|].
  split; [destruct applicable; [congruence | reflexivity]|].
  exists (filter (domain_mask search) (get_custom_fields db')); split.
  { unfold get_custom_fields_by_domain; rewrite C.
    destruct (get_custom_fields db'); reflexivity. }
  rewrite filter_In, get_custom_fields_In, F, (domain_mask_literal domain search new L).
  destruct (valid_tags_spec tags domain V D) as (T & N & _ & U).
  split.
  - intros (_ & [E | (s & E & S)]).
    + destruct applicable as [|x l]; [right; reflexivity|].
      exfalso; apply (stored_domains_not_ALL tags (x :: l) V I); [discriminate|].
      unfold new in E; cbn [applicable_domains] in E; injection E as E; exact E.
    + destruct applicable as [|x l]; [right; reflexivity|left].
      unfold new in E; cbn [applicable_domains] in E; injection E as <-.
      apply (str_contains_join_elim domain (x :: l) T N) in S.
      destruct S as (t & It & St).
      rewrite (U t (I t It) St); exact It.
  - intros J; split; [apply in_or_app; right; left; reflexivity|].
    destruct applicable as [|x l]; [left; reflexivity|].
    destruct J as [J | J]; [|discriminate].
    right; exists (String.concat "," (x :: l)); split; [reflexivity|].
    apply str_contains_join_intro, J.
Qed.

End DefineField.

Lemma domain_tags_valid : valid_tags domain_tags = true.
Proof. vm_compute; reflexivity. Qed.

Lemma add_custom_field_then_by_domain_witness :
  let new := mkField 1 "AMKA" "AMKA" (Some "ΜΕΛΟΣ,ΑΘΛΗΤΗΣ") in
  exists db',
    add_custom_field "AMKA" "AMKA" ["ΜΕΛΟΣ"; "ΑΘΛΗΤΗΣ"] init_db = Some db' /\
    custom_fields db' = [new] /\
    exists result,
      @get_custom_fields_by_domain ascii_runtime "ΑΘΛΗΤΗΣ" db' = Some result /\
      (In new result <-> In "ΑΘΛΗΤΗΣ" ["ΜΕΛΟΣ"; "ΑΘΛΗΤΗΣ"] \/
                         ["ΜΕΛΟΣ"; "ΑΘΛΗΤΗΣ"] = @nil string).
Proof.
  intros new; eexists; split; [vm_compute; reflexivity|].
  destruct (@add_custom_field_then_by_domain ascii_runtime domain_tags
              "AMKA" "AMKA" ["ΜΕΛΟΣ"; "ΑΘΛΗΤΗΣ"] "ΑΘΛΗΤΗΣ" init_db
              (mkDb [] [] [new] [] 1 1 2 1))
    as (F & _ & _ & R).
  - vm_compute; reflexivity.
  - intros t [<- | [<- | []]]; vm_compute; auto.
  - vm_compute; auto 6.
  - apply literal_re_searches_literally; vm_compute; reflexivity.
  - vm_compute; reflexivity.
  - split; [exact F | exact R].
Defined.

(* ================================================================== *)
(** ** The filter pipeline is a conjunction *)









Section Conjunction.
Context `{PyRuntime}.




End Conjunction.


(* ================================================================== *)
(** ** Empty and blank clauses *)

Section BlankClauses.
Context `{PyRuntime}.

(** An unselected multi-choice entry can be dropped from the loop table. *)
Lemma empty_multi_choice_neutral singles before c after f df :
  multi_selected f c = false ->
  apply_filters singles (before ++ c :: after) f df =
  apply_filters singles (before ++ after) f df.
Proof.
  intros E; unfold apply_filters.
  rewrite !fold_left_app; simpl.
  unfold multi_step at 2; rewrite E; reflexivity.
Qed.

(** An empty search text leaves the rows as they are. *)
Lemma empty_text_neutral pattern mask df :
  text_step EmptyString pattern mask df = Some df.
Proof. reflexivity. Qed.

(** A blank federation-id or e-mail search leaves the rows as they are, the
    empty pattern matching every subject. *)
Lemma blank_column_search_neutral text (col : person -> option string) search df :
  re_compile (py_strip text) = Some search -> (forall s, search s = true) ->
  text_step text (py_strip text) (fun sr row => sr (str_of_null (col row))) df
  = Some df.
Proof.
  intros C A; unfold text_step; rewrite C.
  destruct (truthy text); [|reflexivity].
  f_equal; induction df as [|row df IH]; simpl; [|rewrite A, IH]; reflexivity.
Qed.

(** A blank name search keeps the rows that have a first name. *)
Lemma blank_name_search_named text search df :
  re_compile (py_lower (py_strip text)) = Some search ->
  (forall s, search s = true) ->
  Forall (fun row => first_name row <> None) df ->
  text_step text (py_lower (py_strip text)) name_mask df = Some df.
Proof.
  intros C A N; unfold text_step; rewrite C.
  destruct (truthy text); [|reflexivity].
  f_equal; induction N as [|row df Hrow _ IH]; simpl; [reflexivity|].
  unfold name_mask at 1.
  destruct (first_name row); [|congruence].
  simpl; rewrite A, IH; reflexivity.
Qed.

End BlankClauses.

(** C4, at its failing input.  On a snapshot holding a person without names, a
    name search of one space does not give the result of the empty name
    search, whatever the text runtime: the empty search returns the person,
    the blank one raises or returns no row. *)
Theorem blank_name_search_drops_unnamed (rt : PyRuntime) :
  @filtered_df rt default_filters [unnamed_person] = Some [unnamed_person] /\
  @filtered_df rt (with_name_search default_filters " ") [unnamed_person]
    <> Some [unnamed_person] /\
  @filtered_df ascii_runtime (with_name_search default_filters " ") [unnamed_person]
    = Some [].
Proof.
  split; [reflexivity|split]; [|vm_compute; reflexivity].
  unfold filtered_df, apply_filters; simpl.
  unfold text_step at 1; simpl.
  destruct (re_compile _); [|discriminate].
  simpl; discriminate.
Qed.

(* ================================================================== *)
(** ** The import loop *)

Lemma sql_eq_null column : sql_eq column None = false.
Proof. destruct column; reflexivity. Qed.

Lemma filter_none {A} (p : A -> bool) (l : list A) :
  (forall x, p x = false) -> filter p l = [].
Proof.
  intros N; induction l as [|x l IH]; simpl; [|rewrite N]; auto.
Qed.

Section ImportLoop.
Context `{PyRuntime}.
Variable existing : list name_triple.
Variable kf : key_fields.
Variable mapping : list field_mapping.

Lemma import_row_duplicate st row :
  is_duplicate existing (project kf row) = true ->
  import_row existing kf mapping st row =
  mkImport (st_db st) (inserted st) (S (skipped st)) (warnings st).
Proof. intros D; unfold import_row; rewrite D; reflexivity. Qed.

(** The identity re-query finds the row just inserted exactly when its three
    columns are mapped. *)
Lemma requery_found row db :
  let data := project kf row in
  select_id_by_names (sql_get (d_email data)) (sql_get (d_first_name data))
                     (sql_get (d_last_name data))
                     (insert_person (imported_person data) db) <> []
  <-> keys_mapped kf = true.
Proof.
  unfold select_id_by_names, keys_mapped, project; simpl.
  destruct (k_email kf) as [ce|]; simpl.
  2:{ rewrite filter_none; [simpl; split; congruence|].
      intros p; rewrite sql_eq_null; reflexivity. }
  destruct (k_first_name kf) as [cf|]; simpl.
  2:{ rewrite filter_none; [simpl; split; congruence|].
      intros p; rewrite sql_eq_null, andb_false_r; reflexivity. }
  destruct (k_last_name kf) as [cl|]; simpl.
  2:{ rewrite filter_none; [simpl; split; congruence|].
      intros p; rewrite sql_eq_null, andb_false_r; reflexivity. }
  rewrite filter_app, map_app; simpl.
  rewrite !String.eqb_refl; simpl.
  split; [reflexivity|].
  intros _ E; apply app_eq_nil in E; destruct E; discriminate.
Qed.

Lemma import_row_fresh st row :
  is_duplicate existing (project kf row) = false ->
  let st' := import_row existing kf mapping st row in
  people (st_db st') =
    (people (st_db st) ++
       [with_id (people_seq (st_db st)) (imported_person (project kf row))])%list /\
  people_seq (st_db st') = S (people_seq (st_db st)) /\
  skipped st' = skipped st /\
  inserted st' = inserted st + (if keys_mapped kf then 1 else 0).
Proof.
  intros D; unfold import_row; rewrite D.
  pose proof (requery_found row (st_db st)) as Q; simpl in Q.
  destruct (select_id_by_names _ _ _ _) as [|member ids].
  - destruct (keys_mapped kf); [destruct Q as (_ & Q); exfalso; apply Q; auto|].
    simpl; repeat split; lia.
  - destruct (keys_mapped kf); [|destruct Q as (Q & _); discriminate Q; discriminate].
    destruct (fold_left _ mapping _) as [db2 ws] eqn:E.
    set (db1 := insert_person (imported_person (project kf row)) (st_db st)) in *.
    assert (P : people (fst (db2, ws)) = people db1 /\
                people_seq (fst (db2, ws)) = people_seq db1).
    { rewrite <- E.
      apply (write_cells_preserve
               (fun d => people d = people db1 /\ people_seq d = people_seq db1));
        [|simpl; auto].
      intros m f v d d' S (P1 & P2).
      apply save_member_attribute_frame in S; destruct S as (_ & S1 & _ & S2).
      split; congruence. }
    simpl in *; destruct P as (P1 & P2); rewrite P1, P2.
    repeat split; lia.
Qed.

(** What the loop does to the people table and to its counters. *)
Lemma import_loop rows st :
  let st' := fold_left (import_row existing kf mapping) rows st in
  let fresh := fresh_rows existing kf rows in
  people (st_db st') =
    (people (st_db st) ++
       number_from (people_seq (st_db st))
                   (map (fun row => imported_person (project kf row)) fresh))%list /\
  people_seq (st_db st') = people_seq (st_db st) + List.length fresh /\
  skipped st' = skipped st + List.length (duplicate_rows existing kf rows) /\
  inserted st' = inserted st + (if keys_mapped kf then List.length fresh else 0).
Proof.
  revert st; induction rows as [|row rows IH]; intros st; simpl.
  - rewrite app_nil_r; destruct (keys_mapped kf); repeat split; lia.
  - destruct (IH (import_row existing kf mapping st row)) as (I1 & I2 & I3 & I4).
    unfold fresh_rows, duplicate_rows in *; simpl.
    destruct (is_duplicate existing (project kf row)) eqn:D; simpl.
    + rewrite (import_row_duplicate st row D) in *; simpl in *.
      rewrite I1, I2, I3, I4; repeat split; lia.
    + destruct (import_row_fresh st row D) as (F1 & F2 & F3 & F4).
      rewrite I1, I2, I3, I4, F1, F2, F3, F4, <- app_assoc; simpl.
      destruct (keys_mapped kf); repeat split; lia.
Qed.

End ImportLoop.

Section ImportDuplicates.
Context `{PyRuntime}.

Lemma is_duplicate_iff existing data :
  is_duplicate existing data = true <->
  exists fn ln em,
    In (fn, ln, em) existing /\
    py_lower (str_of_null fn) = py_lower (str_get (d_first_name data)) /\
    py_lower (str_of_null ln) = py_lower (str_get (d_last_name data)) /\
    py_lower (str_of_null em) = py_lower (str_get (d_email data)).
Proof.
  unfold is_duplicate; rewrite existsb_exists; split.
  - intros ([[fn ln] em] & I & M); exists fn, ln, em; split; [exact I|].
    unfold matches, ci_equal in M.
    rewrite !andb_true_iff, !String.eqb_eq in M; tauto.
  - intros (fn & ln & em & I & E1 & E2 & E3); exists (fn, ln, em); split; [exact I|].
    unfold matches, ci_equal.
    rewrite !andb_true_iff, !String.eqb_eq; tauto.
Qed.


(** The inserted counter counts the inserted rows when the three columns of
    the identity re-query are mapped, and stays at zero otherwise. *)
Lemma import_inserted_counter kf mapping rows db :
  inserted (import_rows kf mapping rows db) =
  if keys_mapped kf
  then List.length (fresh_rows (select_names db) kf rows)
  else 0.
Proof.
  apply (import_loop (select_names db) kf mapping rows (mkImport db 0 0 [])).
Qed.

End ImportDuplicates.


(** C8, at its failing input.  With first and last name mapped and the e-mail
    choice left on "none", importing one row into the empty store writes the
    person, yet the inserted counter reported to the operator is zero. *)
Theorem import_counter_misses_inserted_row (rt : PyRuntime) :
  let st := @import_rows rt
              (mkKeys (Some "First") (Some "Last") None None None None None)
              [] [sheet_row "Ann" "Lee" "a@x.com" CNaN] init_db in
  people (st_db st) =
    [mkPerson 1 (Some "Lee") (Some "Ann") None None None None None None None None
              None None None None None None None None] /\
  inserted st = 0 /\ skipped st = 0 /\ warnings st = [].
Proof. repeat split. Qed.

(* ================================================================== *)
(** ** Keys of the editable view *)

Lemma digits_no_underscore u : has_char "_" (NilEmpty.string_of_uint u) = false.
Proof. induction u; simpl; auto. Qed.

Lemma has_char_app x a b : has_char x (a ++ String x b) = true.
Proof.
  induction a as [|c a IH]; simpl.
  - rewrite Ascii.eqb_refl; reflexivity.
  - rewrite IH; apply orb_true_r.
Qed.

(** A string splits in one way around its last underscore. *)
Lemma split_last_underscore a b x y :
  has_char "_" x = false -> has_char "_" y = false ->
  (a ++ String "_" x)%string = (b ++ String "_" y)%string -> a = b.
Proof.
  intros Nx Ny; revert b; induction a as [|c a IH]; intros [|c' b] E; simpl in E.
  - reflexivity.
  - injection E as _ E; subst x; rewrite has_char_app in Nx; discriminate.
  - injection E as _ E; subst y; rewrite has_char_app in Ny; discriminate.
  - injection E as -> E; f_equal; apply IH, E.
Qed.

Lemma widget_key_name name name' rid rid' :
  widget_key "all" name rid = widget_key "all" name' rid' -> name = name'.
Proof.
  unfold widget_key; simpl; intros E; injection E as E.
  apply (split_last_underscore _ _ _ _ (digits_no_underscore _)
                               (digits_no_underscore _) E).
Qed.

(** A well-formed session holds nothing under the key of a custom field whose
    name is not one of the widget names. *)
Lemma session_get_custom ss name rid :
  session_wf ss -> ~ In name widget_names ->
  session_get ss (widget_key "all" name rid) = None.
Proof.
  intros W N.
  destruct (session_get ss (widget_key "all" name rid)) as [v|] eqn:G; [|reflexivity].
  exfalso; apply W in G.
  remember (widget_key "all" name rid) as key eqn:K.
  destruct G as [name' rid' I|rest|rest|rest| |];
    try (unfold widget_key in K; simpl in K; discriminate).
  apply widget_key_name in K; subst name'; auto.
Qed.

Lemma widget_entries_wf rid values :
  (forall nv, In nv values -> In (fst nv) widget_names) ->
  session_wf (widget_entries "all" rid values).
Proof.
  intros I key v; induction values as [|[name w] values IH]; [discriminate|].
  change (session_get (widget_entries "all" rid ((name, w) :: values)) key)
    with (if String.eqb (widget_key "all" name rid) key then Some w
          else session_get (widget_entries "all" rid values) key).
  destruct (String.eqb_spec (widget_key "all" name rid) key) as [<-|_].
  - intros _; constructor; apply (I (name, w)); left; reflexivity.
  - apply IH; intros nv Inv; apply I; right; exact Inv.
Qed.

(* ================================================================== *)
(** ** The save button rewrites the custom attributes *)

Lemma rows_of_pair_update m f m' f' v db :
  rows_of_pair m' f' (update_member_attribute m f v db) =
  map (fun ma => if same_pair m f ma then set_value v ma else ma)
      (rows_of_pair m' f' db).
Proof. apply filter_pair_update. Qed.

Lemma get_member_attributes_covers rid db ma :
  In ma (member_attributes db) -> member_id ma = rid ->
  field_exists (field_id ma) db = true ->
  existsb (fun a => ar_id a =? field_id ma) (get_member_attributes rid db) = true.
Proof.
  intros I M F; unfold field_exists in F.
  apply existsb_exists in F; destruct F as (cf & Icf & E).
  apply existsb_exists.
  exists (mkAttrRow (cf_id cf) (field_name cf) (display_name cf) (field_value ma)).
  split; [|exact E].
  unfold get_member_attributes; apply in_flat_map; exists ma; split; [exact I|].
  rewrite M, Nat.eqb_refl.
  apply (in_map (fun cf0 => mkAttrRow (cf_id cf0) (field_name cf0) (display_name cf0)
                                      (field_value ma))).
  apply filter_In; auto.
Qed.

(** The loop of the save button completes whenever every row it visits
    exists, whatever the values read. *)
Lemma update_loop (g : attribute_row -> option string) rid attrs d :
  (forall a, In a attrs -> rows_of_pair rid (ar_id a) d <> []) ->
  fold_left (fun acc attr =>
               d <- acc ;; save_member_attribute rid (ar_id attr) (g attr) d)
            attrs (Some d) <> None.
Proof.
  revert d; induction attrs as [|a attrs IH]; intros d R; simpl; [discriminate|].
  assert (S : save_member_attribute rid (ar_id a) (g a) d
              = Some (update_member_attribute rid (ar_id a) (g a) d)).
  { unfold save_member_attribute.
    specialize (R a (or_introl eq_refl)); unfold rows_of_pair in R.
    destruct (filter _ _); [congruence | reflexivity]. }
  rewrite S; apply IH; intros a' I; rewrite rows_of_pair_update.
  specialize (R a' (or_intror I)).
  destruct (rows_of_pair rid (ar_id a') d); [congruence | discriminate].
Qed.

Lemma joined_rows_exist rid db a :
  In a (get_member_attributes rid db) -> rows_of_pair rid (ar_id a) db <> [].
Proof.
  intros I; apply get_member_attributes_defined in I.
  destruct I as (ma & cf & Ima & _ & Em & Ef & ->); simpl.
  unfold rows_of_pair; intros Z.
  assert (J : In ma (filter (same_pair rid (cf_id cf)) (member_attributes db))).
  { apply filter_In; split; [exact Ima|].
    unfold same_pair; rewrite Em, Ef, !Nat.eqb_refl; reflexivity. }
  rewrite Z in J; contradiction.
Qed.

(** When the save button raises it does so while reading the session, before
    its first statement: the failure does not depend on the store. *)
Lemma save_changes_raises_early prefix ss rid db :
  save_changes prefix ss rid db = None ->
  forall db2, save_changes prefix ss rid db2 = None.
Proof.
  unfold save_changes; intros E db2.
  repeat match type of E with
         | match ?x with Some _ => _ | None => None end = None =>
           destruct x; [|reflexivity]
         end.
  exfalso; revert E; apply update_loop.
  intros a I; apply joined_rows_exist, I.
Qed.

Lemma set_value_same ma : set_value (field_value ma) ma = ma.
Proof. destruct ma; reflexivity. Qed.

(** The loop of the save button, when every row it visits exists: each row of
    the member receives its [value_after], the other rows are untouched. *)
Lemma save_loop_result (g : attribute_row -> option string) rid attrs :
  forall d,
    (forall a, In a attrs -> rows_of_pair rid (ar_id a) d <> []) ->
    exists d',
      fold_left (fun acc attr =>
                   d <- acc ;; save_member_attribute rid (ar_id attr) (g attr) d)
                attrs (Some d) = Some d' /\
      member_attributes d' =
        map (fun ma => if member_id ma =? rid
                       then set_value (value_after g attrs ma) ma else ma)
            (member_attributes d).
Proof.
  induction attrs as [|a attrs IH]; intros d R; simpl.
  - exists d; split; [reflexivity|].
    rewrite <- (map_id (member_attributes d)) at 1.
    apply map_ext; intros ma; unfold value_after; simpl.
    rewrite set_value_same; destruct (member_id ma =? rid); reflexivity.
  - assert (S : save_member_attribute rid (ar_id a) (g a) d
                = Some (update_member_attribute rid (ar_id a) (g a) d)).
    { unfold save_member_attribute.
      specialize (R a (or_introl eq_refl)); unfold rows_of_pair in R.
      destruct (filter _ _); [congruence | reflexivity]. }
    rewrite S.
    destruct (IH (update_member_attribute rid (ar_id a) (g a) d)) as (d' & F & M).
    { intros a' I; rewrite rows_of_pair_update.
      specialize (R a' (or_intror I)).
      destruct (rows_of_pair rid (ar_id a') d); [congruence | discriminate]. }
    exists d'; split; [exact F|].
    rewrite M; simpl; rewrite map_map; apply map_ext; intros ma.
    unfold same_pair, value_after; simpl.
    rewrite (Nat.eqb_sym (ar_id a) (field_id ma)).
    destruct (member_id ma =? rid) eqn:Q; simpl; [|rewrite Q; reflexivity].
    destruct (field_id ma =? ar_id a); simpl; rewrite Q; reflexivity.
Qed.

Lemma value_after_none (g : attribute_row -> option string) attrs ma :
  (forall a, In a attrs -> ar_id a = field_id ma -> g a = None) ->
  existsb (fun a => ar_id a =? field_id ma) attrs = true ->
  value_after g attrs ma = None.
Proof.
  unfold value_after; generalize (field_value ma) as v.
  induction attrs as [|a attrs IH]; intros v G E; simpl in *; [discriminate|].
  destruct (ar_id a =? field_id ma) eqn:Q; simpl in E.
  - apply Nat.eqb_eq in Q; rewrite (G a (or_introl eq_refl) Q).
    destruct (existsb (fun a0 => ar_id a0 =? field_id ma) attrs) eqn:E'.
    + apply IH; auto.
    + clear -E'; induction attrs as [|b attrs IH]; simpl in *; [reflexivity|].
      apply orb_false_iff in E'; destruct E' as (E1 & E2).
      rewrite E1; apply IH, E2.
  - apply IH; auto.
Qed.

Lemma Forall2_map {A} (R : A -> A -> Prop) (F : A -> A) (l : list A) :
  (forall x, In x l -> R x (F x)) -> Forall2 R l (map F l).
Proof.
  induction l as [|x l IH]; intros K; simpl; constructor.
  - apply K; left; reflexivity.
  - apply IH; intros y I; apply K; right; exact I.
Qed.

(** C10, as amended.  Let the session hold only keys the script creates.  When
    the save button of a person completes, the attribute rows are rewritten in
    place: rows of other people are unchanged, and every row of that person
    whose field is defined and not named like a widget of the editable view
    holds NULL afterwards. *)
Theorem save_changes_nulls_attributes
        (ss : session_state) (rid : nat) (db db' : database) :
  session_wf ss ->
  save_changes "all" ss rid db = Some db' ->
  Forall2 (rewritten_null rid db) (member_attributes db) (member_attributes db').
Proof.
  intros W S; unfold save_changes in S.
  repeat match type of S with
         | match ?x with Some _ => _ | None => None end = Some _ =>
           destruct x; [|discriminate]
         end.
  match type of S with
  | fold_left _ (get_member_attributes rid ?d) _ = _ => set (db1 := d) in *
  end.
  destruct (save_loop_result
              (fun attr => option_map sql_text
                 (session_get ss (widget_key "all" (ar_field_name attr) rid)))
              rid (get_member_attributes rid db1) db1)
    as (d' & L & E).
  { intros a I; apply joined_rows_exist, I. }
  rewrite L in S; inversion S; subst d'; rewrite E.
  change (member_attributes db1) with (member_attributes db).
  apply Forall2_map; intros ma I.
  destruct (Nat.eqb_spec (member_id ma) rid) as [Q | Q];
    repeat split; try congruence.
  intros _ (D & N); simpl.
  apply value_after_none.
  - intros a Ia Q'; apply get_member_attributes_defined in Ia.
    destruct Ia as (ma0 & cf & _ & Icf & _ & _ & ->).
    cbn [ar_id ar_field_name] in *.
    rewrite session_get_custom; [reflexivity | exact W | exact (N cf Icf Q')].
  - apply (get_member_attributes_covers rid db1 ma I Q D).
Qed.

Lemma sample_widgets_wf mail rid :
  session_wf (widget_entries "all" rid (sample_widgets mail)).
Proof.
  apply widget_entries_wf; intros nv I.
  unfold sample_widgets in I; simpl in I.
  repeat (destruct I as [<- | I]; [simpl; tauto|]).
  contradiction.
Qed.

Lemma save_changes_nulls_attributes_witness :
  exists db',
    save_changes "all" (widget_entries "all" 1 (sample_widgets "n@x.com")) 1
                 (sample_store "AMKA") = Some db' /\
    member_attributes db' = [mkAttr 1 1 1 None] /\
    Forall2 (rewritten_null 1 (sample_store "AMKA"))
            (member_attributes (sample_store "AMKA")) (member_attributes db').
Proof.
  eexists; split; [vm_compute; reflexivity|].
  split; [reflexivity|].
  apply (save_changes_nulls_attributes
           (widget_entries "all" 1 (sample_widgets "n@x.com")) 1 (sample_store "AMKA")).
  - apply sample_widgets_wf.
  - vm_compute; reflexivity.
Defined.

(** C10 as stated fails: with a custom field named [email], the key the save
    button reads is the key of the e-mail text input, and the attribute row is
    rewritten with the e-mail address instead of NULL. *)
Lemma save_changes_writes_widget_value :
  session_wf (widget_entries "all" 1 (sample_widgets "n@x.com")) /\
  fields_defined (sample_store "email") /\
  member_attributes (sample_store "email") = [mkAttr 1 1 1 (Some "12345")] /\
  exists db',
    save_changes "all" (widget_entries "all" 1 (sample_widgets "n@x.com")) 1
                 (sample_store "email") = Some db' /\
    member_attributes db' = [mkAttr 1 1 1 (Some "n@x.com")].
Proof.
  split; [apply sample_widgets_wf|].
  split; [intros ma [<- | []]; reflexivity|].
  split; [reflexivity|].
  eexists; split; vm_compute; reflexivity.
Qed.

(* ================================================================== *)
(** ** Worked imports *)

(** The duplicate of the specification: the same three fields in another
    case are skipped and counted once. *)
Example import_skips_other_case :
  let db := mkDb [named_person 1 "Nikos" "Papas" "n@x.com"] [] [] [] 2 1 1 1 in
  let st := @import_rows ascii_runtime identity_keys []
              [sheet_row "NIKOS" "papas" "N@X.COM" CNaN] db in
  skipped st = 1 /\ inserted st = 0 /\ people (st_db st) = people db.
Proof. vm_compute; auto. Qed.

(** Three rows, the second with a cell for a field that no longer exists: the
    three people are inserted and one warning is shown. *)
Example import_isolates_failed_cell :
  let st := @import_rows ascii_runtime identity_keys [mkMapping 9 "Ghost" "Extra"]
              [ sheet_row "Ann" "Lee" "a@x.com" CNaN;
                sheet_row "Bo" "Li" "b@x.com" (CStr "v");
                sheet_row "Cy" "Lu" "c@x.com" CNaN ] init_db in
  List.length (people (st_db st)) = 3 /\ inserted st = 3 /\ skipped st = 0 /\
  warnings st = [mkWarning "Ghost" (Some (CStr "Bo"))].
Proof. vm_compute; auto. Qed.

(* ================================================================== *)
(** ** Attribute rows refer to defined fields *)

Lemma fields_defined_save m f v db db' :
  save_member_attribute m f v db = Some db' -> fields_defined db -> fields_defined db'.
Proof.
  intros S D ma I.
  pose proof (save_member_attribute_frame m f v db db' S) as (_ & _ & C & _).
  unfold field_exists; rewrite C.
  unfold save_member_attribute, insert_member_attribute in S.
  destruct (filter (same_pair m f) (member_attributes db)).
  - destruct (person_exists m db && field_exists f db) eqn:K; [|discriminate].
    inversion S; subst db'; simpl in I.
    apply in_app_or in I; destruct I as [I | [<- | []]]; [apply D, I|].
    apply andb_true_iff in K; apply K.
  - inversion S; subst db'; simpl in I.
    apply in_map_iff in I; destruct I as (ma0 & E & I0).
    destruct (same_pair m f ma0); subst ma; apply (D ma0 I0).
Qed.

Lemma fields_defined_kept (q : member_attribute -> bool) db db' :
  member_attributes db' = filter q (member_attributes db) ->
  custom_fields db' = custom_fields db ->
  fields_defined db -> fields_defined db'.
Proof.
  intros M C D ma I; rewrite M in I; apply filter_In in I.
  unfold field_exists; rewrite C; apply D, I.
Qed.

Section FieldsDefined.
Context `{PyRuntime}.

Lemma exec_fields_defined op db : fields_defined db -> fields_defined (exec op db).
Proof.
  intros D; destruct op; simpl.
  - exact D.
  - unfold add_custom_field, insert_custom_field.
    destruct (existsb _ (custom_fields db)); simpl; [exact D|].
    intros ma I; pose proof (D ma I) as K.
    unfold field_exists in *; simpl; rewrite existsb_app, K; reflexivity.
  - intros ma I; simpl in I; rewrite filter_idem in I.
    apply filter_In in I; destruct I as (I & Q).
    specialize (D ma I); unfold field_exists in *; simpl.
    apply existsb_exists in D; destruct D as (cf & Icf & E).
    apply existsb_exists; exists cf; split; [|exact E].
    apply filter_In; split; [exact Icf|].
    apply Nat.eqb_eq in E; rewrite E; exact Q.
  - destruct (save_member_attribute m f v db) eqn:S; simpl; [|exact D].
    apply (fields_defined_save m f v db d S D).
  - exact D.
  - destruct (save_changes "all" ss rid db) eqn:S; simpl; [|exact D].
    eapply (save_changes_preserves fields_defined); eauto;
      first [ apply fields_defined_save | intros ? ? ? K; exact K ].
  - apply (fields_defined_kept (fun ma => negb (member_id ma =? rid)) db); auto.
    simpl; apply filter_idem.
  - apply (import_rows_preserve fields_defined); auto;
      first [ apply fields_defined_save | intros ? ? K; exact K ].
Qed.

(** The foreign key on [field_id] holds in every store the operator's actions
    reach. *)
Lemma run_fields_defined ops : fields_defined (run ops).
Proof.
  unfold run.
  assert (D : fields_defined init_db) by (intros ma []).
  revert D; generalize init_db as db.
  induction ops as [|op ops IH]; intros db D; simpl; auto.
  apply IH, exec_fields_defined, D.
Qed.

End FieldsDefined.

(* ================================================================== *)
(** * Further properties of the script *)

(** ** The new-member form *)

(** X1.  The save button of tab 1 never changes the store.  With an empty
    last or first name it only warns; otherwise its INSERT is executed with
    nineteen placeholders and eighteen parameters and raises, so the handler
    never completes and no person is written. *)
Theorem add_member_button_never_writes (form : member_form) (db : database) :
  store_after (add_member_button form db) = db /\
  (forall db', add_member_button form db <> Done db') /\
  (add_member_button form db = Warned db <->
   nf_last_name form = EmptyString \/ nf_first_name form = EmptyString) /\
  (add_member_button form db = Raised db <->
   nf_last_name form <> EmptyString /\ nf_first_name form <> EmptyString).
Proof.
  unfold add_member_button.
  replace (bind_parameters new_member_placeholders (form_parameters form))
    with (@None (list sql_value)) by reflexivity.
  destruct (nf_last_name form) as [|c1 s1], (nf_first_name form) as [|c2 s2]; simpl;
    repeat split; intros; try discriminate; try tauto; try congruence;
    intuition discriminate.
Qed.

(* ================================================================== *)
(** ** The reset button and the role tabs *)

(** X2.  Whatever the filters hold, the reset button puts them back to their
    initial value, and with these the pipeline returns the whole snapshot,
    without raising. *)
Theorem reset_filters_shows_everyone `{PyRuntime} (f : filters) (snapshot : list person) :
  reset_filters f = default_filters /\
  filtered_df (reset_filters f) snapshot = Some snapshot.
Proof. split; reflexivity. Qed.

Lemma filter_length_le {A} (p : A -> bool) (l : list A) :
  List.length (filter p l) <= List.length l.
Proof. induction l as [|x l IH]; simpl; [|destruct (p x); simpl]; lia. Qed.

(** X3.  Choosing yes in one single-choice filter of the all-people tab, with
    every other filter at its initial value, gives the frame of the
    corresponding role tab, and choosing yes in two of them gives the people
    of the first role tab that are also in the second.  A person whose member
    flag is NULL is returned under no choice of the member filter but the
    initial one. *)
Theorem role_tabs_match_filters `{PyRuntime} (df_all : list person) :
  filtered_df (role_filters "ΝΑΙ" ALL ALL ALL) df_all = Some (role_view is_member df_all) /\
  filtered_df (role_filters ALL "ΝΑΙ" ALL ALL) df_all = Some (role_view is_athlete df_all) /\
  filtered_df (role_filters ALL ALL "ΝΑΙ" ALL) df_all = Some (role_view is_student df_all) /\
  filtered_df (role_filters ALL ALL ALL "ΝΑΙ") df_all
    = Some (role_view is_interested df_all) /\
  filtered_df (role_filters "ΝΑΙ" "ΝΑΙ" ALL ALL) df_all
    = Some (role_view is_athlete (role_view is_member df_all)) /\
  (forall choice row,
      choice <> ALL -> is_member row = None ->
      exists result,
        filtered_df (role_filters choice ALL ALL ALL) df_all = Some result /\
        ~ In row result).
Proof.
  repeat split; try reflexivity.
  intros choice row C N.
  exists (filter (fun r => series_eq (is_member r) choice) df_all); split.
  - unfold filtered_df, apply_filters; simpl.
    unfold single_step at 4, single_selected; simpl.
    apply String.eqb_neq in C; rewrite C; reflexivity.
  - intros I; apply filter_In in I; destruct I as (_ & E).
    rewrite N in E; discriminate.
Qed.

(* ================================================================== *)
(** ** The add-field form *)

(** X8.  The add button of tab 9, for a selection among the five offered
    tags: an empty name or an empty selection only warns; a name whose
    stripped form is already defined raises; in both cases nothing is
    written.  Otherwise one definition is appended, with the stripped name as
    field name and display name and the comma-joined selection as its
    domains, which is never the sentinel. *)
Theorem add_field_button_outcome `{PyRuntime}
        (new_field_name : string) (new_applicable_domains : list string)
        (db : database) :
  incl new_applicable_domains domain_tags ->
  match add_field_button new_field_name new_applicable_domains db with
  | Warned d =>
      d = db /\ (new_field_name = EmptyString \/ new_applicable_domains = [])
  | Raised d =>
      d = db /\ In (py_strip new_field_name) (map field_name (custom_fields db))
  | Done d =>
      new_field_name <> EmptyString /\ new_applicable_domains <> [] /\
      ~ In (py_strip new_field_name) (map field_name (custom_fields db)) /\
      String.concat "," new_applicable_domains <> ALL /\
      custom_fields d =
        (custom_fields db ++
           [mkField (custom_fields_seq db) (py_strip new_field_name)
                    (py_strip new_field_name)
                    (Some (String.concat "," new_applicable_domains))])%list /\
      people d = people db /\ member_attributes d = member_attributes db /\
      settings d = settings db
  end.
Proof.
  intros I; unfold add_field_button.
  destruct new_field_name as [|c name]; simpl; [auto|].
  destruct new_applicable_domains as [|t l]; [auto|].
  unfold add_custom_field, insert_custom_field.
  destruct (existsb _ (custom_fields db)) eqn:E.
  - split; [reflexivity|].
    apply existsb_exists in E; destruct E as (cf & Icf & Q).
    apply String.eqb_eq in Q; rewrite <- Q; apply in_map, Icf.
  - repeat split; try discriminate.
    + intros J; apply in_map_iff in J; destruct J as (cf & Q & Icf).
      assert (K : existsb (fun cf0 => String.eqb (field_name cf0)
                                                 (py_strip (String c name)))
                          (custom_fields db) = true).
      { apply existsb_exists; exists cf; split; [exact Icf|].
        apply String.eqb_eq, Q. }
      rewrite K in E; discriminate.
    + apply (stored_domains_not_ALL domain_tags (t :: l) domain_tags_valid I).
      discriminate.
Qed.

Lemma add_field_button_outcome_witness :
  @add_field_button ascii_runtime " AMKA " ["ΜΕΛΟΣ"; "ΑΘΛΗΤΗΣ"] init_db =
  Done (mkDb [] [] [mkField 1 "AMKA" "AMKA" (Some "ΜΕΛΟΣ,ΑΘΛΗΤΗΣ")] [] 1 1 2 1) /\
  String.concat "," ["ΜΕΛΟΣ"; "ΑΘΛΗΤΗΣ"] <> ALL.
Proof.
  pose proof (@add_field_button_outcome ascii_runtime " AMKA " ["ΜΕΛΟΣ"; "ΑΘΛΗΤΗΣ"]
                init_db) as T.
  assert (I : incl ["ΜΕΛΟΣ"; "ΑΘΛΗΤΗΣ"] domain_tags)
    by (intros t [<- | [<- | []]]; vm_compute; auto).
  specialize (T I).
  split; [vm_compute; reflexivity|].
  vm_compute in T; destruct T as (_ & _ & _ & T & _).
  vm_compute; exact T.
Defined.

(* ================================================================== *)
(** ** Deleting a person *)

Lemma flat_map_filter_nil {A B} (g : A -> list B) (q : A -> bool) (l : list A) :
  (forall x, q x = false -> g x = []) ->
  flat_map g (filter q l) = flat_map g l.
Proof.
  intros N; induction l as [|x l IH]; simpl; auto.
  destruct (q x) eqn:Q; simpl; rewrite IH; [reflexivity|].
  rewrite (N x Q); reflexivity.
Qed.

(** X4.  The delete button of the editable view removes the person and every
    attribute row of that person, its second statement finding nothing left
    to delete after the cascade of the first.  The person then has no
    attributes, while the field definitions, the settings and what
    [get_member_attributes] returns for any other person are unchanged. *)
Theorem delete_person_cascade (rid : nat) (db : database) :
  delete_person rid db = delete_person_row rid db /\
  people (delete_person rid db) = filter (fun p => negb (p_id p =? rid)) (people db) /\
  member_attributes (delete_person rid db) =
    filter (fun ma => negb (member_id ma =? rid)) (member_attributes db) /\
  custom_fields (delete_person rid db) = custom_fields db /\
  settings (delete_person rid db) = settings db /\
  get_member_attributes rid (delete_person rid db) = [] /\
  (forall m, m <> rid ->
             get_member_attributes m (delete_person rid db) = get_member_attributes m db).
Proof.
  assert (E : delete_person rid db = delete_person_row rid db).
  { unfold delete_person, delete_attributes_of_member, delete_person_row,
      set_member_attributes, set_people; simpl.
    rewrite filter_idem; reflexivity. }
  rewrite E; repeat split.
  - unfold get_member_attributes; simpl.
    induction (member_attributes db) as [|ma l IH]; simpl; [reflexivity|].
    destruct (member_id ma =? rid) eqn:Q; simpl; [exact IH|].
    rewrite Q; exact IH.
  - intros m N; unfold get_member_attributes; simpl.
    apply flat_map_filter_nil; intros ma Q.
    apply negb_false_iff, Nat.eqb_eq in Q.
    destruct (Nat.eqb_spec (member_id ma) m); [congruence | reflexivity].
Qed.

(* ================================================================== *)
(** ** Drawing a row of the editable view and saving it unedited *)

Lemma index_of_nth {A} (eqb : A -> A -> bool) (x d : A) (options : list A) i :
  (forall a b, eqb a b = true -> a = b) ->
  index_of eqb x options = Some i -> nth i options d = x.
Proof.
  intros R; revert i; induction options as [|y l IH]; intros i E; simpl in *.
  - discriminate.
  - destruct (eqb y x) eqn:Q.
    + inversion E; apply R, Q.
    + destruct (index_of eqb x l); [|discriminate].
      inversion E; apply IH; reflexivity.
Qed.

Lemma index_of_none {A} (eqb : A -> A -> bool) (x : A) (options : list A) :
  index_of eqb x options = None <-> existsb (fun y => eqb y x) options = false.
Proof.
  induction options as [|y l IH]; simpl; [tauto|].
  destruct (eqb y x); simpl; [split; discriminate|].
  destruct (index_of eqb x l); rewrite <- IH; split; congruence.
Qed.

Lemma year_range_listed first n y :
  existsb (fun x => Z.eqb x y) (year_range first n)
  = in_years first (first + Z.of_nat n - 1) y.
Proof.
  revert first; induction n as [|n IH]; intros first; unfold in_years.
  - simpl; destruct (Z.leb_spec first y), (Z.leb_spec y (first + 0 - 1)); simpl;
      auto; lia.
  - cbn [year_range existsb]; rewrite IH; unfold in_years.
    destruct (Z.eqb_spec first y), (Z.leb_spec first y),
      (Z.leb_spec (first + 1) y), (Z.leb_spec y (first + 1 + Z.of_nat n - 1)),
      (Z.leb_spec y (first + Z.of_nat (S n) - 1)); simpl; auto; lia.
Qed.

Lemma year_index_raises first n v :
  year_index (year_range first n) v = None <->
  exists y, v = Some y /\ in_years first (first + Z.of_nat n - 1) y = false.
Proof.
  destruct v as [y|]; simpl.
  - rewrite index_of_none, year_range_listed.
    split; [eauto | intros (y' & E & I); inversion E; subst; exact I].
  - split; [discriminate | intros (y & E & _); discriminate].
Qed.

Lemma year_index_shown first n v i :
  year_index (year_range first (S n)) v = Some i ->
  nth i (year_range first (S n)) 0%Z
  = shown_year first (first + Z.of_nat (S n) - 1) false v.
Proof.
  destruct v as [y|]; unfold year_index; intros E.
  - apply (index_of_nth Z.eqb y 0%Z) in E; [exact E|].
    intros a b Q; apply Z.eqb_eq, Q.
  - inversion E; reflexivity.
Qed.

Lemma member_year_shown v :
  nth (member_year_index v) years_2000_2050 0%Z = shown_year 2000 2050 true v.
Proof.
  destruct v as [y|]; [|reflexivity].
  unfold member_year_index, shown_year.
  destruct (index_of Z.eqb y years_2000_2050) as [i|] eqn:E.
  - assert (L : existsb (fun x => Z.eqb x y) years_2000_2050 = true).
    { destruct (existsb (fun x => Z.eqb x y) years_2000_2050) eqn:X; auto.
      apply index_of_none in X; congruence. }
    unfold years_2000_2050 in L; rewrite year_range_listed in L.
    change (2000 + Z.of_nat 51 - 1)%Z with 2050%Z in L; rewrite L; simpl.
    apply (index_of_nth Z.eqb y 0%Z) in E; [exact E|].
    intros a b Q; apply Z.eqb_eq, Q.
  - apply index_of_none in E.
    unfold years_2000_2050 in E; rewrite year_range_listed in E.
    change (2000 + Z.of_nat 51 - 1)%Z with 2050%Z in E; rewrite E; reflexivity.
Qed.

Lemma month_shown v : nth (month_index v) months EmptyString = shown_month v.
Proof.
  destruct v as [m|]; [|reflexivity].
  unfold month_index, shown_month.
  destruct (index_of String.eqb m months) as [i|] eqn:E.
  - assert (L : existsb (fun x => String.eqb x m) months = true).
    { destruct (existsb (fun x => String.eqb x m) months) eqn:X; auto.
      apply index_of_none in X; congruence. }
    rewrite L.
    apply (index_of_nth String.eqb m EmptyString) in E; [exact E|].
    intros a b Q; apply String.eqb_eq, Q.
  - apply index_of_none in E; rewrite E; reflexivity.
Qed.

Lemma flag_shown v : nth (flag_index v) ["ΟΧΙ"; "ΝΑΙ"] EmptyString = shown_flag v.
Proof. unfold flag_index, shown_flag; destruct (series_eq v "ΟΧΙ"); reflexivity. Qed.

Lemma default_widgets_none_iff (row : person) :
  default_widgets row = None <-> drawable row = false.
Proof.
  unfold default_widgets, drawable.
  pose proof (year_index_raises 2010 41 (subscription_year row)) as S.
  pose proof (year_index_raises 1980 71 (athlete_from_year row)) as A.
  change (2010 + Z.of_nat 41 - 1)%Z with 2050%Z in S.
  change (1980 + Z.of_nat 71 - 1)%Z with 2050%Z in A.
  fold years_2010_2050 in S; fold years_1980_2050 in A.
  destruct (year_index years_2010_2050 (subscription_year row)) as [i|].
  - destruct (year_index years_1980_2050 (athlete_from_year row)) as [j|].
    + split; [discriminate|]; intros D; exfalso.
      apply andb_false_iff in D; destruct D as [D | D].
      * destruct (subscription_year row) as [y|]; [|discriminate].
        assert (N : @None nat = None) by reflexivity.
        destruct S as (_ & S); specialize (S (ex_intro _ y (conj eq_refl D)));
          discriminate.
      * destruct (athlete_from_year row) as [y|]; [|discriminate].
        destruct A as (_ & A); specialize (A (ex_intro _ y (conj eq_refl D)));
          discriminate.
    + split; [intros _|reflexivity].
      destruct A as (A & _); destruct (A eq_refl) as (y & E & I).
      rewrite E, I; apply andb_false_r.
  - split; [intros _|reflexivity].
    destruct S as (S & _); destruct (S eq_refl) as (y & E & I).
    rewrite E, I; reflexivity.
Qed.

(** X9.  A row of the editable view can be drawn exactly when its subscription
    year is missing or between 2010 and 2050 and its athlete year is missing
    or between 1980 and 2050; otherwise the computation of a select-box index
    raises.  The member year never makes it raise. *)
Theorem default_widgets_raises (row : person) :
  (default_widgets row = None <-> drawable row = false) /\
  (forall y, default_widgets
               (mkPerson (p_id row) (last_name row) (first_name row) (phone row)
                         (email row) (is_member row) (member_month row) y
                         (subscription_year row) (is_athlete row) (eom_number row)
                         (athlete_from_year row) (is_student row)
                         (student_period_month row) (student_period_year row)
                         (student_university row) (is_interested row)
                         (interested_from_month row) (interested_from_year row))
             = None <-> default_widgets row = None).
Proof.
  split; [apply default_widgets_none_iff|].
  intros y; rewrite !default_widgets_none_iff; reflexivity.
Qed.

Lemma widget_key_eqb name name' rid :
  String.eqb (widget_key "all" name rid) (widget_key "all" name' rid)
  = String.eqb name name'.
Proof.
  destruct (String.eqb_spec name name') as [-> | N].
  - apply String.eqb_refl.
  - apply String.eqb_neq; intros E; apply N, (widget_key_name _ _ _ _ E).
Qed.

Lemma session_get_widgets rid ws rest name :
  session_get (widget_entries "all" rid ws ++ rest)%list (widget_key "all" name rid) =
  match widget_value name ws with
  | Some v => Some v
  | None => session_get rest (widget_key "all" name rid)
  end.
Proof.
  induction ws as [|[n v] ws IH]; [reflexivity|].
  change (session_get (widget_entries "all" rid ((n, v) :: ws) ++ rest)%list
                      (widget_key "all" name rid))
    with (if String.eqb (widget_key "all" n rid) (widget_key "all" name rid)
          then Some v
          else session_get (widget_entries "all" rid ws ++ rest)%list
                           (widget_key "all" name rid)).
  rewrite widget_key_eqb; simpl widget_value.
  destruct (String.eqb n name); [reflexivity | exact IH].
Qed.

(** Pressing save on a row whose widgets still hold the values they were
    created with. *)
Lemma save_unedited (row : person) ws rest db :
  default_widgets row = Some ws ->
  exists db',
    save_changes "all" (widget_entries "all" (p_id row) ws ++ rest)%list (p_id row) db
    = Some db' /\
    people db' = people (update_person (p_id row) (shown_values row) db) /\
    custom_fields db' = custom_fields db /\
    settings db' = settings db.
Proof.
  unfold default_widgets; intros W.
  destruct (year_index years_2010_2050 (subscription_year row)) as [i|] eqn:Ei;
    [|discriminate].
  destruct (year_index years_1980_2050 (athlete_from_year row)) as [j|] eqn:Ej;
    [|discriminate].
  rewrite !flag_shown, month_shown, member_year_shown in W.
  unfold years_2010_2050, years_1980_2050 in *.
  rewrite (year_index_shown 2010 40 _ _ Ei), (year_index_shown 1980 70 _ _ Ej) in W.
  change (2010 + Z.of_nat 41 - 1)%Z with 2050%Z in W.
  change (1980 + Z.of_nat 71 - 1)%Z with 2050%Z in W.
  injection W as <-.
  unfold save_changes; rewrite !session_get_widgets.
  cbn [widget_value String.eqb Ascii.eqb Bool.eqb sql_int sql_text].
  match goal with
  | |- exists _, fold_left _ (get_member_attributes _ ?d) _ = _ /\ _ =>
    set (db1 := d)
  end.
  destruct (fold_left _ (get_member_attributes (p_id row) db1) (Some db1))
    as [db'|] eqn:L.
  2:{ exfalso; revert L; apply update_loop.
      intros a I; apply joined_rows_exist, I. }
  exists db'; split; [reflexivity|].
  apply (save_loop_preserves
           (fun d => people d = people db1 /\ custom_fields d = custom_fields db /\
                     settings d = settings db)) in L.
  - destruct L as (d0 & E0 & P); inversion E0; subst d0.
    destruct P as (P1 & P2 & P3); [repeat split|].
    rewrite P1; repeat split; auto.
  - intros m f v d d' S (P1 & P2 & P3).
    apply save_member_attribute_frame in S; destruct S as (S1 & S2 & S3 & _).
    repeat split; congruence.
Qed.

(** X10.  Pressing save on a drawn row without editing it writes the values
    the form shows into the eleven columns: a missing text becomes empty, a
    member or athlete flag that is not no (NULL included) becomes yes, a
    missing month or year becomes the first option.  The definitions of the
    custom fields and the settings are untouched. *)
Theorem save_unedited_writes_shown_values
        (row : person) (ws : list (string * session_value))
        (rest : session_state) (db : database) :
  default_widgets row = Some ws ->
  exists db',
    save_changes "all" (widget_entries "all" (p_id row) ws ++ rest)%list (p_id row) db
    = Some db' /\
    people db' = people (update_person (p_id row) (shown_values row) db) /\
    custom_fields db' = custom_fields db /\
    settings db' = settings db /\
    (is_member row <> Some "ΟΧΙ" ->
     forall q, In q (people db') -> p_id q = p_id row -> is_member q = Some "ΝΑΙ").
Proof.
  intros W; destruct (save_unedited row ws rest db W) as (db' & S & P & C & T).
  exists db'; repeat split; auto.
  intros N q I Q; rewrite P in I; simpl in I.
  apply in_map_iff in I; destruct I as (q0 & E & _).
  destruct (p_id q0 =? p_id row) eqn:K.
  - subst q; simpl; unfold shown_flag, series_eq.
    destruct (is_member row) as [s|]; [|reflexivity].
    destruct (String.eqb_spec s "ΟΧΙ"); [congruence | reflexivity].
  - subst q0; apply Nat.eqb_neq in K; contradiction.
Qed.

Lemma save_unedited_writes_shown_values_witness :
  exists ws db',
    default_widgets unnamed_person = Some ws /\
    save_changes "all" (widget_entries "all" 1 ws ++ [("all_save_1", SBool true)])%list 1
                 (mkDb [unnamed_person] [] [] [] 2 1 1 1) = Some db' /\
    people db' =
      [mkPerson 1 (Some "") (Some "") (Some "") (Some "n@x.com") (Some "ΝΑΙ")
                (Some "Ιανουάριος") (Some 2000%Z) (Some 2010%Z) (Some "ΝΑΙ") (Some "")
                (Some 1980%Z) None None None None None None None].
Proof.
  eexists; eexists; split; [vm_compute; reflexivity|].
  split; [vm_compute; reflexivity|].
  match goal with
  | |- people ?d = _ =>
    destruct (save_unedited_writes_shown_values unnamed_person
                _ [("all_save_1", SBool true)] (mkDb [unnamed_person] [] [] [] 2 1 1 1)
                (eq_refl (default_widgets unnamed_person)))
      as (db' & S & P & _)
  end.
  vm_compute in S; injection S as <-.
  reflexivity.
Defined.

Lemma form_shaped_unchanged (row : person) :
  form_shaped row ->
  drawable row = true /\
  mkPerson (p_id row) (e_last_name (shown_values row)) (e_first_name (shown_values row))
           (e_phone (shown_values row)) (e_email (shown_values row))
           (e_is_member (shown_values row)) (e_member_month (shown_values row))
           (e_member_year (shown_values row)) (e_subscription_year (shown_values row))
           (e_is_athlete (shown_values row)) (e_eom_number (shown_values row))
           (e_athlete_from_year (shown_values row))
           (is_student row) (student_period_month row) (student_period_year row)
           (student_university row)
           (is_interested row) (interested_from_month row) (interested_from_year row)
  = row.
Proof.
  destruct row; unfold form_shaped, drawable, shown_values.
  cbn [p_id last_name first_name phone email is_member member_month member_year
       subscription_year is_athlete eom_number athlete_from_year is_student
       student_period_month student_period_year student_university is_interested
       interested_from_month interested_from_year
       e_last_name e_first_name e_phone e_email e_is_member e_member_month
       e_member_year e_subscription_year e_is_athlete e_eom_number
       e_athlete_from_year].
  intros ((s1 & ->) & (s2 & ->) & (s3 & ->) & (s4 & ->) & (s5 & ->) & M & A &
          (m & -> & Im) & (y1 & -> & I1) & (y2 & -> & I2) & (y3 & -> & I3)).
  rewrite I2, I3; split; [reflexivity|].
  assert (X : existsb (fun x => String.eqb x m) months = true).
  { apply existsb_exists; exists m; split; [exact Im | apply String.eqb_refl]. }
  unfold shown_month, shown_year, or_empty; rewrite X, I1.
  destruct M as [-> | ->], A as [-> | ->]; reflexivity.
Qed.

(** X11.  For a person whose eleven columns already hold what the form shows
    (texts present, flags yes or no, month and years among the options) and
    who is the only row with that id, pressing save without editing completes
    and leaves the people table exactly as it was. *)
Theorem save_unedited_keeps_form_shaped_row
        (row : person) (rest : session_state) (db : database) :
  form_shaped row ->
  (forall q, In q (people db) -> p_id q = p_id row -> q = row) ->
  exists ws db',
    default_widgets row = Some ws /\
    save_changes "all" (widget_entries "all" (p_id row) ws ++ rest)%list (p_id row) db
    = Some db' /\
    people db' = people db.
Proof.
  intros F U; destruct (form_shaped_unchanged row F) as (D & E).
  destruct (default_widgets row) as [ws|] eqn:W.
  2:{ apply default_widgets_none_iff in W; congruence. }
  destruct (save_unedited row ws rest db W) as (db' & S & P & _).
  exists ws, db'; repeat split; auto.
  rewrite P; unfold update_person; cbn [people set_people].
  rewrite <- (map_id (people db)) at 2.
  apply map_ext_in; intros q I.
  destruct (Nat.eqb_spec (p_id q) (p_id row)) as [Q | Q]; [|reflexivity].
  pose proof (U q I Q) as K; subst q; exact E.
Qed.

Lemma save_unedited_keeps_form_shaped_row_witness :
  exists ws db',
    default_widgets shaped_person = Some ws /\
    save_changes "all" (widget_entries "all" 1 ws ++ [])%list 1
                 (mkDb [shaped_person] [] [] [] 2 1 1 1) = Some db' /\
    people db' = [shaped_person].
Proof.
  apply (save_unedited_keeps_form_shaped_row shaped_person []
           (mkDb [shaped_person] [] [] [] 2 1 1 1)).
  - unfold form_shaped, shaped_person; simpl.
    repeat split; eauto.
    exists "Μάιος"; split; [reflexivity | tauto].
  - intros q [<- | []] _; reflexivity.
Defined.

(* ================================================================== *)
(** ** Importing a sheet a second time *)

Lemma number_from_In p ps seq :
  In p ps -> exists i, In (with_id i p) (number_from seq ps).
Proof.
  revert seq; induction ps as [|q ps IH]; intros seq I; [contradiction|].
  destruct I as [-> | I].
  - exists seq; left; reflexivity.
  - destruct (IH (S seq) I) as (i & Ii); exists i; right; exact Ii.
Qed.

Section ImportAgain.
Context `{PyRuntime}.

Lemma import_all_duplicates existing kf mapping rows st :
  (forall row, In row rows -> is_duplicate existing (project kf row) = true) ->
  fold_left (import_row existing kf mapping) rows st =
  mkImport (st_db st) (inserted st) (skipped st + List.length rows) (warnings st).
Proof.
  revert st; induction rows as [|row rows IH]; intros st D; simpl.
  - rewrite Nat.add_0_r; destruct st; reflexivity.
  - rewrite (import_row_duplicate existing kf mapping st row
               (D row (or_introl eq_refl))).
    rewrite IH by (intros r I; apply D; right; exact I); simpl.
    f_equal; lia.
Qed.

(** After an import every row of the sheet whose identity cells are text
    matches a person of the store. *)
Lemma imported_rows_are_known kf mapping rows db row :
  keys_mapped kf = true -> In row rows -> text_keys kf row ->
  is_duplicate (select_names (st_db (import_rows kf mapping rows db)))
               (project kf row) = true.
Proof.
  intros K I T.
  destruct (import_loop (select_names db) kf mapping rows (mkImport db 0 0 []))
    as (P & _).
  change (fold_left (import_row (select_names db) kf mapping) rows
                    (mkImport db 0 0 []))
    with (import_rows kf mapping rows db) in P.
  cbn [st_db] in P.
  apply is_duplicate_iff.
  destruct (is_duplicate (select_names db) (project kf row)) eqn:D.
  - apply is_duplicate_iff in D; destruct D as (fn & ln & em & J & E).
    exists fn, ln, em; split; [|exact E].
    unfold select_names in *; rewrite P, map_app; apply in_or_app; left; exact J.
  - assert (F : In row (fresh_rows (select_names db) kf rows)).
    { apply filter_In; split; [exact I | rewrite D; reflexivity]. }
    apply (in_map (fun r => imported_person (project kf r))) in F.
    destruct (number_from_In _ _ (people_seq db) F) as (i & Ii).
    set (p := imported_person (project kf row)) in *.
    exists (first_name p), (last_name p), (email p); split.
    + unfold select_names; rewrite P, map_app; apply in_or_app; right.
      apply in_map_iff; exists (with_id i p); split; [reflexivity | exact Ii].
    + unfold keys_mapped in K; unfold p, project; simpl.
      destruct (k_email kf) as [ce|] eqn:Ke; [|discriminate].
      destruct (k_first_name kf) as [cf|] eqn:Kf; [|discriminate].
      destruct (k_last_name kf) as [cl|] eqn:Kl; [|discriminate].
      destruct (T cf) as (s1 & E1); [left; exact Kf|].
      destruct (T cl) as (s2 & E2); [right; left; exact Kl|].
      destruct (T ce) as (s3 & E3); [right; right; left; exact Ke|].
      simpl; rewrite E1, E2, E3; repeat split.
Qed.

(** X7.  When the three identity columns are mapped and hold text in every
    row, importing the same sheet again right after an import writes nothing:
    every row is skipped as a duplicate, the inserted counter is zero, no
    warning is shown and the store is the one the first import left. *)
Theorem import_again_writes_nothing
        (kf : key_fields) (mapping mapping' : list field_mapping)
        (rows : list excel_row) (db : database) :
  keys_mapped kf = true ->
  (forall row, In row rows -> text_keys kf row) ->
  import_rows kf mapping' rows (st_db (import_rows kf mapping rows db)) =
  mkImport (st_db (import_rows kf mapping rows db)) 0 (List.length rows) [].
Proof.
  intros K T.
  unfold import_rows at 1.
  rewrite import_all_duplicates; [reflexivity|].
  intros row I; apply imported_rows_are_known; auto.
Qed.

End ImportAgain.

Lemma import_again_writes_nothing_witness :
  let rows := [ sheet_row "Ann" "Lee" "a@x.com" (CStr "7");
                sheet_row "ANN" "lee" "A@X.COM" CNaN;
                sheet_row "Bo" "Li" "b@x.com" CNaN ] in
  let db1 := st_db (@import_rows ascii_runtime identity_keys [] rows init_db) in
  List.length (people db1) = 3 /\
  @import_rows ascii_runtime identity_keys [] rows db1 = mkImport db1 0 3 [].
Proof.
  intros rows db1; split; [vm_compute; reflexivity|].
  apply (@import_again_writes_nothing ascii_runtime identity_keys [] [] rows init_db).
  - reflexivity.
  - intros row [<- | [<- | [<- | []]]] c [E | [E | [E | []]]];
      inversion E; subst c; eexists; reflexivity.
Defined.

(* ================================================================== *)
(** ** Keys of the field definitions *)

Lemma ids_increase_weaken b b' l : b' <= b -> ids_increase b l -> ids_increase b' l.
Proof. destruct l as [|cf l]; simpl; [auto|]; intros L (B & I); split; [lia | exact I]. Qed.

Lemma ids_increase_bound b l cf : ids_increase b l -> In cf l -> b <= cf_id cf.
Proof.
  revert b; induction l as [|x l IH]; intros b; simpl; [tauto|].
  intros (B & I) [<- | J]; [exact B|].
  specialize (IH _ I J); lia.
Qed.

Lemma ids_increase_filter (q : custom_field -> bool) b l :
  ids_increase b l -> ids_increase b (filter q l).
Proof.
  revert b; induction l as [|x l IH]; intros b; simpl; [auto|].
  intros (B & I); destruct (q x); simpl.
  - split; [exact B | apply IH, I].
  - apply IH, (ids_increase_weaken (S (cf_id x))); [lia | exact I].
Qed.

Lemma ids_increase_append b l seq name display domains :
  ids_increase b l -> Forall (fun cf => cf_id cf < seq) l -> b <= seq ->
  ids_increase b (l ++ [mkField seq name display domains]).
Proof.
  revert b; induction l as [|x l IH]; intros b; simpl.
  - intros _ _ L; auto.
  - intros (B & I) F L; inversion F; subst.
    split; [exact B | apply IH; auto; lia].
Qed.

Lemma ids_increase_sorted b l : ids_increase b l -> fold_right insert_by_id [] l = l.
Proof.
  revert b; induction l as [|x l IH]; intros b; simpl; [reflexivity|].
  intros (_ & I); rewrite (IH _ I).
  destruct l as [|y l]; [reflexivity|]; simpl in *.
  destruct I as (B & _).
  destruct (Nat.leb_spec (cf_id x) (cf_id y)); [reflexivity | lia].
Qed.

Lemma ids_increase_above k l :
  ids_increase (S k) l -> filter (fun c => cf_id c =? k) l = [].
Proof.
  induction l as [|x l IH]; simpl; [reflexivity|].
  intros (B & I).
  destruct (Nat.eqb_spec (cf_id x) k); [lia|].
  apply IH, (ids_increase_weaken (S (cf_id x))); [lia | exact I].
Qed.

Lemma ids_increase_unique b l cf :
  ids_increase b l -> In cf l -> filter (fun c => cf_id c =? cf_id cf) l = [cf].
Proof.
  revert b; induction l as [|x l IH]; intros b; simpl; [tauto|].
  intros (B & I) [-> | J].
  - rewrite Nat.eqb_refl, (ids_increase_above _ _ I); reflexivity.
  - pose proof (ids_increase_bound _ _ _ I J) as L.
    destruct (Nat.eqb_spec (cf_id x) (cf_id cf)); [lia|].
    apply (IH _ I J).
Qed.

Lemma NoDup_map_filter {A B} (g : A -> B) (q : A -> bool) (l : list A) :
  NoDup (map g l) -> NoDup (map g (filter q l)).
Proof.
  induction l as [|x l IH]; simpl; [auto|].
  intros N; inversion N as [|y ys Nin Nl]; subst.
  destruct (q x); simpl; [constructor|]; auto.
  intros J; apply Nin.
  apply in_map_iff in J; destruct J as (z & E & Iz).
  apply filter_In in Iz; rewrite <- E; apply in_map, Iz.
Qed.

Lemma NoDup_snoc {A} (l : list A) (x : A) :
  NoDup l -> ~ In x l -> NoDup (l ++ [x]).
Proof.
  induction l as [|y l IH]; simpl; intros N X.
  - constructor; [tauto | constructor].
  - inversion N; subst; constructor.
    + intros J; apply in_app_or in J; destruct J as [J | [J | []]]; [tauto|].
      apply X; left; symmetry; exact J.
    + apply IH; auto.
Qed.

Lemma field_keys_same db db' :
  custom_fields db' = custom_fields db ->
  custom_fields_seq db' = custom_fields_seq db ->
  field_keys_ok db -> field_keys_ok db'.
Proof. unfold field_keys_ok; intros -> ->; auto. Qed.

Lemma save_member_attribute_fields m f v db db' :
  save_member_attribute m f v db = Some db' ->
  custom_fields db' = custom_fields db /\
  custom_fields_seq db' = custom_fields_seq db.
Proof.
  unfold save_member_attribute, insert_member_attribute.
  destruct (filter (same_pair m f) (member_attributes db)).
  - destruct (person_exists m db && field_exists f db); intros E; inversion E; auto.
  - intros E; inversion E; auto.
Qed.

Lemma existsb_name_In name l :
  existsb (fun cf => String.eqb (field_name cf) name) l = true <->
  In name (map field_name l).
Proof.
  rewrite existsb_exists, in_map_iff; split.
  - intros (cf & I & E); apply String.eqb_eq in E; eauto.
  - intros (cf & E & I); exists cf; split; [exact I | apply String.eqb_eq, E].
Qed.

Section FieldKeys.
Context `{PyRuntime}.

Lemma exec_field_keys op db : field_keys_ok db -> field_keys_ok (exec op db).
Proof.
  intros K; destruct op; simpl.
  - exact K.
  - unfold add_custom_field, insert_custom_field.
    destruct (existsb _ (custom_fields db)) eqn:E; simpl; [exact K|].
    destruct K as (I & F & N); repeat split; simpl.
    + apply ids_increase_append; auto; lia.
    + apply Forall_app; split.
      * eapply Forall_impl; [|exact F]; simpl; intros; lia.
      * constructor; [simpl; lia | constructor].
    + rewrite map_app; simpl; apply NoDup_snoc; [exact N|].
      intros J; apply existsb_name_In in J; congruence.
  - destruct K as (I & F & N); repeat split; simpl.
    + apply ids_increase_filter, I.
    + apply Forall_forall; intros cf J; apply filter_In in J.
      rewrite Forall_forall in F; apply F, J.
    + apply NoDup_map_filter, N.
  - destruct (save_member_attribute m f v db) eqn:S; simpl; [|exact K].
    apply save_member_attribute_fields in S; destruct S as (S1 & S2).
    apply (field_keys_same db); auto.
  - exact K.
  - destruct (save_changes "all" ss rid db) eqn:S; simpl; [|exact K].
    eapply (save_changes_preserves field_keys_ok); eauto;
      first [ intros ? ? ? ? ? S' K'; apply save_member_attribute_fields in S';
              destruct S' as (S1 & S2); apply (field_keys_same _ _ S1 S2 K')
            | intros ? ? ? K'; exact K' ].
  - exact K.
  - apply (import_rows_preserve field_keys_ok); auto;
      first [ intros ? ? ? ? ? S' K'; apply save_member_attribute_fields in S';
              destruct S' as (S1 & S2); apply (field_keys_same _ _ S1 S2 K')
            | intros ? ? K'; exact K' ].
Qed.

(** In every store the operator's actions reach, the field definitions are
    listed by increasing id and carry pairwise different names. *)
Lemma run_field_keys ops : field_keys_ok (run ops).
Proof.
  unfold run.
  assert (K : field_keys_ok init_db)
    by (repeat split; simpl; auto; constructor).
  revert K; generalize init_db as db.
  induction ops as [|op ops IH]; intros db K; simpl; auto.
  apply IH, exec_field_keys, K.
Qed.

End FieldKeys.

Section DefinedFields.
Context `{PyRuntime}.

(** X6.  In every store the operator's actions reach, [get_custom_fields]
    returns the definitions in the order they were added and their names are
    pairwise different.  Adding a field under a name already defined raises;
    under a new name it succeeds and the new definition, with the next id,
    comes last in what [get_custom_fields] returns, people and attribute rows
    staying as they were. *)
Theorem add_custom_field_unique_names
        (ops : list operation) (name display : string) (applicable : list string) :
  let db := run ops in
  get_custom_fields db = custom_fields db /\
  NoDup (map field_name (custom_fields db)) /\
  (In name (map field_name (custom_fields db)) ->
   add_custom_field name display applicable db = None) /\
  (~ In name (map field_name (custom_fields db)) ->
   exists db',
     add_custom_field name display applicable db = Some db' /\
     get_custom_fields db' =
       (get_custom_fields db ++
          [mkField (custom_fields_seq db) name display
                   (Some (stored_domains applicable))])%list /\
     people db' = people db /\ member_attributes db' = member_attributes db).
Proof.
  intros db; pose proof (run_field_keys ops) as K; fold db in K.
  assert (G : get_custom_fields db = custom_fields db)
    by (destruct K as (I & _); apply (ids_increase_sorted 0), I).
  split; [exact G|]; split; [apply K|]; split.
  - intros I; apply existsb_name_In in I.
    unfold add_custom_field, insert_custom_field; rewrite I; reflexivity.
  - intros N.
    pose proof (exec_field_keys (OpAddCustomField name display applicable) db K) as K'.
    simpl in K'; revert K'.
    unfold add_custom_field, insert_custom_field.
    destruct (existsb _ (custom_fields db)) eqn:E.
    + apply existsb_name_In in E; contradiction.
    + simpl; intros (I' & _); eexists; split; [reflexivity|].
      repeat split.
      unfold get_custom_fields at 1; simpl in *.
      rewrite (ids_increase_sorted 0 _ I'), G.
      destruct applicable; reflexivity.
Qed.

Lemma filter_joined_rows (mk : custom_field -> attribute_row) k f l :
  (forall cf, ar_id (mk cf) = cf_id cf) ->
  filter (fun r => ar_id r =? f) (map mk (filter (fun cf => cf_id cf =? k) l)) =
  if k =? f then map mk (filter (fun cf => cf_id cf =? k) l) else [].
Proof.
  intros A; induction l as [|x l IH]; simpl; [destruct (k =? f); reflexivity|].
  destruct (Nat.eqb_spec (cf_id x) k) as [Q | Q]; simpl; [|exact IH].
  rewrite A, IH, Q; destruct (k =? f); reflexivity.
Qed.

Lemma filter_get_member_attributes m f db :
  filter (fun r => ar_id r =? f) (get_member_attributes m db) =
  flat_map (fun ma =>
              map (fun cf => mkAttrRow (cf_id cf) (field_name cf) (display_name cf)
                                       (field_value ma))
                  (filter (fun cf => cf_id cf =? field_id ma) (custom_fields db)))
           (rows_of_pair m f db).
Proof.
  unfold get_member_attributes, rows_of_pair.
  induction (member_attributes db) as [|ma l IH]; simpl; [reflexivity|].
  rewrite filter_app, IH; unfold same_pair at 2.
  destruct (member_id ma =? m); simpl; [|reflexivity].
  rewrite filter_joined_rows by reflexivity.
  destruct (field_id ma =? f); reflexivity.
Qed.

Lemma get_member_attributes_other m m' f v db db' :
  save_member_attribute m f v db = Some db' -> m' <> m ->
  get_member_attributes m' db' = get_member_attributes m' db.
Proof.
  intros S N.
  pose proof (save_member_attribute_fields _ _ _ _ _ S) as (C & _).
  apply save_member_attribute_rows in S.
  unfold get_member_attributes; rewrite C.
  destruct S as [(_ & M) | (_ & M)]; rewrite M; clear M.
  - rewrite flat_map_app; simpl.
    destruct (Nat.eqb_spec m m'); [congruence|].
    rewrite !app_nil_r; reflexivity.
  - induction (member_attributes db) as [|ma l IH]; simpl; [reflexivity|].
    rewrite IH; f_equal.
    unfold same_pair.
    destruct (Nat.eqb_spec (member_id ma) m) as [Q | Q]; simpl; [|reflexivity].
    destruct (field_id ma =? f); simpl; [|reflexivity].
    rewrite Q; destruct (Nat.eqb_spec m m'); [congruence | reflexivity].
Qed.

(** X5.  In every store the operator's actions reach, after a completed
    [save_member_attribute] for a member and a field, [get_member_attributes]
    of that member holds exactly one row of that field: the id, the names of
    its single definition, and the value just written.  What it returns for
    any other member is unchanged. *)
Theorem save_then_get_member_attributes
        (ops : list operation) (m f : nat) (v : option string) (db' : database) :
  save_member_attribute m f v (run ops) = Some db' ->
  exists cf,
    In cf (custom_fields (run ops)) /\ cf_id cf = f /\
    filter (fun r => ar_id r =? f) (get_member_attributes m db')
      = [mkAttrRow f (field_name cf) (display_name cf) v] /\
    (forall m', m' <> m ->
                get_member_attributes m' db' = get_member_attributes m' (run ops)).
Proof.
  intros S.
  pose proof (run_field_keys ops) as (I & _).
  pose proof (save_member_attribute_fields _ _ _ _ _ S) as (C & _).
  destruct (save_member_attribute_pair _ _ _ _ _ S (run_unique_pairs ops m f))
    as (row & R & V).
  assert (J : In row (rows_of_pair m f db')) by (rewrite R; left; reflexivity).
  apply filter_In in J; destruct J as (J & P).
  apply andb_true_iff in P; destruct P as (_ & Pf); apply Nat.eqb_eq in Pf.
  assert (D : field_exists f (run ops) = true).
  { pose proof (exec_fields_defined (OpSaveMemberAttribute m f v) (run ops)
                  (run_fields_defined ops)) as D.
    simpl in D; rewrite S in D; simpl in D.
    specialize (D row J); unfold field_exists in *.
    rewrite C, Pf in D; exact D. }
  unfold field_exists in D; apply existsb_exists in D.
  destruct D as (cf & Icf & Q); apply Nat.eqb_eq in Q.
  exists cf; split; [exact Icf|]; split; [exact Q|]; split.
  - rewrite filter_get_member_attributes, R; simpl.
    rewrite C, Pf, <- Q, (ids_increase_unique 0 _ cf I Icf), V; reflexivity.
  - intros m' N; apply (get_member_attributes_other m m' f v _ _ S N).
Qed.

End DefinedFields.

Lemma save_then_get_member_attributes_witness :
  exists db',
    save_member_attribute 1 1 (Some "12345")
      (@run ascii_runtime
            [OpInsertPerson unnamed_person; OpAddCustomField "AMKA" "AMKA" ["ΜΕΛΟΣ"]])
    = Some db' /\
    get_member_attributes 1 db' = [mkAttrRow 1 "AMKA" "AMKA" (Some "12345")].
Proof.
  eexists; split; [vm_compute; reflexivity|].
  destruct (@save_then_get_member_attributes ascii_runtime
              [OpInsertPerson unnamed_person; OpAddCustomField "AMKA" "AMKA" ["ΜΕΛΟΣ"]]
              1 1 (Some "12345") _ eq_refl) as (cf & _ & _ & _ & _).
  reflexivity.
Defined.

(* ================================================================== *)
(** ** Columns no statement writes *)

Lemma number_from_Forall (Q : person -> Prop) seq ps :
  (forall i p, In p ps -> Q (with_id i p)) -> Forall Q (number_from seq ps).
Proof.
  revert seq; induction ps as [|p ps IH]; intros seq K; simpl; constructor.
  - apply K; left; reflexivity.
  - apply IH; intros i q I; apply K; right; exact I.
Qed.

Lemma update_person_student_columns rid e db :
  Forall student_columns_null (people db) ->
  Forall student_columns_null (people (update_person rid e db)).
Proof.
  intros F; simpl; apply Forall_forall; intros q I.
  apply in_map_iff in I; destruct I as (q0 & E & I0).
  rewrite Forall_forall in F; specialize (F q0 I0).
  destruct (p_id q0 =? rid); subst q; exact F.
Qed.

Lemma save_member_attribute_student_columns m f v db db' :
  save_member_attribute m f v db = Some db' ->
  Forall student_columns_null (people db) ->
  Forall student_columns_null (people db').
Proof.
  intros S F; apply save_member_attribute_frame in S.
  destruct S as (_ & S & _); rewrite S; exact F.
Qed.

Section StudentColumns.
Context `{PyRuntime}.

Lemma exec_student_columns op db :
  match op with OpInsertPerson _ => False | _ => True end ->
  Forall student_columns_null (people db) ->
  Forall student_columns_null (people (exec op db)).
Proof.
  intros O F; destruct op; simpl; try contradiction; try exact F.
  - unfold add_custom_field, insert_custom_field.
    destruct (existsb _ (custom_fields db)); exact F.
  - destruct (save_member_attribute m f v db) eqn:S; simpl; [|exact F].
    exact (save_member_attribute_student_columns _ _ _ _ _ S F).
  - destruct (save_changes "all" ss rid db) eqn:S; simpl; [|exact F].
    apply (save_changes_preserves
             (fun x => Forall student_columns_null (people x))
             save_member_attribute_student_columns
             update_person_student_columns _ _ _ _ _ S F).
  - apply Forall_forall; intros q I; apply filter_In in I.
    rewrite Forall_forall in F; apply F, I.
  - destruct (import_loop (select_names db) kf mapping rows (mkImport db 0 0 []))
      as (P & _).
    unfold import_rows; rewrite P; apply Forall_app; split; [exact F|].
    apply number_from_Forall; intros i p I.
    apply in_map_iff in I; destruct I as (row & <- & _).
    repeat split.
Qed.

(** X12.  The import writes seven columns and the save button of the editable
    view eleven, none of them a student or prospect column.  So in every store
    reached by the operator's actions other than a direct INSERT into people,
    these columns are NULL for everybody, the student and prospect tabs list
    nobody and their counts are zero. *)
Theorem student_and_prospect_tabs_empty (ops : list operation) :
  no_direct_insert ops ->
  Forall student_columns_null (people (run ops)) /\
  role_view is_student (people (run ops)) = [] /\
  role_view is_interested (people (run ops)) = [] /\
  count_students (counts (people (run ops))) = 0 /\
  count_interested (counts (people (run ops))) = 0.
Proof.
  intros N.
  assert (F : Forall student_columns_null (people (run ops))).
  { unfold run.
    assert (F0 : Forall student_columns_null (people init_db)) by constructor.
    revert F0; generalize init_db as db.
    induction N as [|op ops O _ IH]; intros db F0; simpl; [exact F0|].
    apply IH, exec_student_columns; assumption. }
  assert (V : forall col : person -> option string,
             (forall p, student_columns_null p -> col p = None) ->
             role_view col (people (run ops)) = []).
  { intros col K; unfold role_view.
    induction F as [|p ps Sp _ IH]; simpl; [reflexivity|].
    rewrite (K p Sp); exact IH. }
  assert (S : role_view is_student (people (run ops)) = [])
    by (apply V; intros p Sp; apply Sp).
  assert (I : role_view is_interested (people (run ops)) = [])
    by (apply V; intros p Sp; apply Sp).
  unfold counts; simpl; rewrite S, I; auto.
Qed.

End StudentColumns.

Lemma student_and_prospect_tabs_empty_witness :
  let ops := [ OpImport identity_keys [] [sheet_row "Ann" "Lee" "a@x.com" CNaN];
               OpSaveChanges (widget_entries "all" 1 (sample_widgets "a@x.com")) 1 ] in
  no_direct_insert ops /\
  List.length (people (@run ascii_runtime ops)) = 1 /\
  role_view is_member (people (@run ascii_runtime ops)) <> [] /\
  role_view is_student (people (@run ascii_runtime ops)) = [] /\
  count_interested (counts (people (@run ascii_runtime ops))) = 0.
Proof.
  intros ops.
  assert (N : no_direct_insert ops) by (repeat constructor).
  destruct (@student_and_prospect_tabs_empty ascii_runtime ops N)
    as (_ & S & _ & _ & I).
  split; [exact N|].
  split; [vm_compute; reflexivity|].
  split; [vm_compute; discriminate|].
  split; [exact S | exact I].
Defined.
